(** * SQL guard and bounded executor of [app.py]

    A shallow embedding of [guard_sql] and [run_sql] (src/app.py, lines
    77-127) together with the part of Python's [str] and [re] behaviour
    they rely on.

    Conventions.
    - A Python [str] is a [list ascii]; every [ascii] stands for one code
      point in the range 0..255.  String constants of the source that only
      serve as messages are kept as constructors of an enumeration, with
      the original text quoted in the documentation of the constructor.
    - The three guard patterns and the LIMIT pattern are given as regular
      expression syntax trees, read off the pattern text exactly as the
      [re] module parses it.  The patterns are written in the source as raw
      string literals ([r'...']), in which a backslash is an ordinary
      character: the two characters [\\] of the literal reach the [re]
      module as two backslashes, which [re] reads as an escaped, that is
      literal, backslash.  The letter that follows ([s], [b]) is then an
      ordinary literal letter.
    - The data store is an oracle that fixes, for each call the code makes
      on the driver, whether it raises and what it returns; the calls made
      are recorded in a log. *)

From Stdlib Require Import List Ascii String ZArith Lia Bool DecimalString.
Import ListNotations.

Local Open Scope char_scope.
Local Open Scope list_scope.

(** ** Python strings *)

Module PyStr.

Definition str := list ascii.

(** Literals of the development are written as Rocq strings. *)
Definition lit (s : string) : str := list_ascii_of_string s.

(** The double quote character, code point 34. *)
Definition dquote : ascii := "034".

(** The backslash character, code point 92. *)
Definition backslash : ascii := "\".

(** The line feed character, code point 10. *)
Definition newline : ascii := "010".

Definition semicolon : ascii := ";".

(** [str.isspace] on one character, for code points below 256: the
    characters 9..13, 28..32, 133 and 160. *)
Definition isspace (c : ascii) : bool :=
  let n := N_of_ascii c in
  ((9 <=? n) && (n <=? 13) || (28 <=? n) && (n <=? 32)
   || (n =? 133) || (n =? 160))%N.

(** Lower-casing of the letters A..Z; every other code point below 256
    that is not one of these letters is lower-cased by Python to a code
    point that is not an ASCII letter, which is all a comparison with an
    ASCII pattern letter depends on. *)
Definition lower (c : ascii) : ascii :=
  let n := N_of_ascii c in
  if ((65 <=? n) && (n <=? 90))%N then ascii_of_N (n + 32) else c.

(** [s.lstrip()] *)
Fixpoint lstrip (s : str) : str :=
  match s with
  | c :: s' => if isspace c then lstrip s' else s
  | [] => []
  end.

(** [s.rstrip()] *)
Definition rstrip (s : str) : str := rev (lstrip (rev s)).

(** [s.strip()] *)
Definition strip (s : str) : str := rstrip (lstrip s).

(** [s.rstrip(chars)] for a one-character [chars]: every trailing
    occurrence of the character is removed. *)
Fixpoint lstrip_char (x : ascii) (s : str) : str :=
  match s with
  | c :: s' => if Ascii.eqb c x then lstrip_char x s' else s
  | [] => []
  end.

Definition rstrip_char (x : ascii) (s : str) : str :=
  rev (lstrip_char x (rev s)).

(** [s[:-1]]: all characters but the last; the empty string for the empty
    string. *)
Definition drop_last (s : str) : str := removelast s.

(** [x in s] for a one-character [x]. *)
Definition contains_char (x : ascii) (s : str) : bool :=
  existsb (Ascii.eqb x) s.

(** [l[:n]] for an integer [n], on any list: the first [n] elements when
    [n] is not negative, all but the last [-n] when it is. *)
Definition slice_to {A : Type} (l : list A) (n : Z) : list A :=
  if (0 <=? n)%Z then firstn (Z.to_nat n) l
  else firstn (List.length l - Z.to_nat (- n)) l.

(** [str(n)] for an integer [n]. *)
Definition str_of_int (n : Z) : str :=
  lit (NilZero.string_of_int (Z.to_int n)).

End PyStr.

Import PyStr.

(** ** Regular expressions of the [re] module *)

Module Re.

(** The part of the pattern language needed here: literal characters, the
    dot, the class [\s], grouping (implicit in the tree), alternation and
    the quantifiers [*], [+] and [?]. *)
Inductive regex : Type :=
| Void                      (* matches nothing; arises from derivatives *)
| Eps                       (* the empty pattern *)
| Lit (c : ascii)           (* a literal character *)
| Dot                       (* [.] *)
| Space                     (* the class [\s] *)
| Seq (r1 r2 : regex)       (* concatenation *)
| Alt (r1 r2 : regex)       (* [r1|r2] *)
| Star (r : regex).         (* [r*] *)

(** [r+] and [r?] *)
Definition Plus (r : regex) : regex := Seq r (Star r).
Definition Opt (r : regex) : regex := Alt r Eps.

(** A run of literal characters. *)
Fixpoint Word (w : str) : regex :=
  match w with
  | [] => Eps
  | c :: w' => Seq (Lit c) (Word w')
  end.

(** The compilation flags the source passes. *)
Record flags : Type := {
  IGNORECASE : bool;
  DOTALL : bool
}.

(** One pattern character against one text character. *)
Definition lit_matches (fl : flags) (c x : ascii) : bool :=
  if IGNORECASE fl then Ascii.eqb (lower c) (lower x) else Ascii.eqb c x.

Definition dot_matches (fl : flags) (x : ascii) : bool :=
  DOTALL fl || negb (Ascii.eqb x newline).

(** Does the pattern match the empty string? *)
Fixpoint nullable (r : regex) : bool :=
  match r with
  | Void => false
  | Eps => true
  | Lit _ => false
  | Dot => false
  | Space => false
  | Seq r1 r2 => nullable r1 && nullable r2
  | Alt r1 r2 => nullable r1 || nullable r2
  | Star _ => true
  end.

(** What is left of the pattern after it has consumed [x]. *)
Fixpoint deriv (fl : flags) (x : ascii) (r : regex) : regex :=
  match r with
  | Void => Void
  | Eps => Void
  | Lit c => if lit_matches fl c x then Eps else Void
  | Dot => if dot_matches fl x then Eps else Void
  | Space => if isspace x then Eps else Void
  | Seq r1 r2 =>
      if nullable r1
      then Alt (Seq (deriv fl x r1) r2) (deriv fl x r2)
      else Seq (deriv fl x r1) r2
  | Alt r1 r2 => Alt (deriv fl x r1) (deriv fl x r2)
  | Star r1 => Seq (deriv fl x r1) (Star r1)
  end.

(** Does the pattern match some prefix of [s]?  This is whether
    [re.match] finds a match. *)
Fixpoint match_prefix (fl : flags) (r : regex) (s : str) : bool :=
  nullable r ||
  match s with
  | [] => false
  | x :: s' => match_prefix fl (deriv fl x r) s'
  end.

(** Does the pattern match somewhere in [s]? *)
Fixpoint match_anywhere (fl : flags) (r : regex) (s : str) : bool :=
  match_prefix fl r s ||
  match s with
  | [] => false
  | _ :: s' => match_anywhere fl r s'
  end.

(** A compiled pattern.  [at_start] records a leading [^]: without
    [re.MULTILINE] it lets the pattern match at the first position of the
    text only. *)
Record pattern : Type := {
  at_start : bool;
  body : regex;
  pflags : flags
}.

(** [p.search(s)] as a truth value ([re.search] returns a match object or
    [None]). *)
Definition search (p : pattern) (s : str) : bool :=
  if at_start p then match_prefix (pflags p) (body p) s
  else match_anywhere (pflags p) (body p) s.

(** The words a pattern matches, as a relation. *)
Inductive lang (fl : flags) : regex -> str -> Prop :=
| L_eps : lang fl Eps []
| L_lit c x : lit_matches fl c x = true -> lang fl (Lit c) [x]
| L_dot x : dot_matches fl x = true -> lang fl Dot [x]
| L_space x : isspace x = true -> lang fl Space [x]
| L_seq r1 r2 u v : lang fl r1 u -> lang fl r2 v -> lang fl (Seq r1 r2) (u ++ v)
| L_alt_l r1 r2 u : lang fl r1 u -> lang fl (Alt r1 r2) u
| L_alt_r r1 r2 u : lang fl r2 u -> lang fl (Alt r1 r2) u
| L_star_nil r : lang fl (Star r) []
| L_star_cons r x u v :
    lang fl r (x :: u) -> lang fl (Star r) v -> lang fl (Star r) (x :: u ++ v).

End Re.

Import Re.

(** ** The guard *)

(** A sequence of sub-patterns. *)
Fixpoint Seqs (rs : list regex) : regex :=
  match rs with
  | [] => Eps
  | [r] => r
  | r :: rs' => Seq r (Seqs rs')
  end.

(** An alternation of literal words, [(w1|w2|...)]. *)
Fixpoint Words (ws : list string) : regex :=
  match ws with
  | [] => Void
  | [w] => Word (lit w)
  | w :: ws' => Alt (Word (lit w)) (Words ws')
  end.

(** [re.IGNORECASE | re.DOTALL] and [re.IGNORECASE]. *)
Definition I_S : flags := {| IGNORECASE := true; DOTALL := true |}.
Definition I : flags := {| IGNORECASE := true; DOTALL := false |}.

(** [_SQL_ALLOW_RE = re.compile(r'^(\\s*(with|select)\\b)',
    re.IGNORECASE | re.DOTALL)].  The pattern is, token by token: [^], a
    literal backslash, [s*], the group [(with|select)], a literal
    backslash, the letter [b]. *)
Definition _SQL_ALLOW_RE : pattern :=
  {| at_start := true;
     body := Seqs [Lit backslash; Star (Lit "s"); Words ["with"; "select"]%string;
                   Lit backslash; Lit "b"];
     pflags := I_S |}.

(** The verbs of [_SQL_FORBID_RE]. *)
Definition forbidden_verbs : list string :=
  ["insert"; "update"; "delete"; "drop"; "alter"; "truncate"; "create";
   "grant"; "revoke"; "commit"; "rollback"]%string.

(** [_SQL_FORBID_RE = re.compile(r'\\b(insert|...|rollback)\\b',
    re.IGNORECASE)]: a literal backslash, the letter [b], one of the verbs,
    a literal backslash, the letter [b]. *)
Definition _SQL_FORBID_RE : pattern :=
  {| at_start := false;
     body := Seqs [Lit backslash; Lit "b"; Words forbidden_verbs;
                   Lit backslash; Lit "b"];
     pflags := I |}.

(** [_SQL_VIEW_RE = re.compile(
      r'from\\s+public\\s*\\.\\s*\"?PurchaseAllView\"?', re.IGNORECASE)]:
    [from], a literal backslash, [s+], [public], a literal backslash, [s*],
    a literal backslash, [.] (any character but a line feed), a literal
    backslash, [s*], an optional double quote, [PurchaseAllView], an
    optional double quote. *)
Definition _SQL_VIEW_RE : pattern :=
  {| at_start := false;
     body := Seqs [Word (lit "from"); Lit backslash; Plus (Lit "s");
                   Word (lit "public"); Lit backslash; Star (Lit "s");
                   Lit backslash; Dot; Lit backslash; Star (Lit "s");
                   Opt (Lit dquote); Word (lit "PurchaseAllView");
                   Opt (Lit dquote)];
     pflags := I |}.

(** The four messages [guard_sql] raises [ValueError] with. *)
Inductive rejection : Type :=
| NotAReadStatement    (* line 85: SQL должен начинаться с SELECT/WITH. *)
| ForbiddenOperation   (* line 87: Запрещены DML/DDL операции. *)
| UnauthorizedTarget   (* line 89: Разрешены запросы только к public.PurchaseAllView
                          (the view name in double quotes). *)
| MultipleStatements.  (* line 92: Несколько команд запрещены (найдена точка с
                          запятой в середине). *)

(** Exceptions: the [ValueError] of the guard, and an [Exception] raised
    by the database driver, with its [str(e)]. *)
Inductive exn : Type :=
| ValueError (why : rejection)
| DriverError (text : str).

(** A call either returns a value or raises. *)
Inductive outcome (A : Type) : Type :=
| Return (a : A)
| Raise (e : exn).

Arguments Return {A} a.
Arguments Raise {A} e.

(** [a or b] on strings: [b] when [a] is empty. *)
Definition str_or (a b : str) : str :=
  match a with
  | [] => b
  | _ => a
  end.

(** [guard_sql(sql_text)] *)
Definition guard_sql (sql_text : str) : outcome str :=
  if negb (search _SQL_ALLOW_RE (str_or sql_text [])) then
    Raise (ValueError NotAReadStatement)
  else if search _SQL_FORBID_RE sql_text then
    Raise (ValueError ForbiddenOperation)
  else if negb (search _SQL_VIEW_RE sql_text) then
    Raise (ValueError UnauthorizedTarget)
  else if contains_char semicolon (drop_last (strip sql_text)) then
    Raise (ValueError MultipleStatements)
  else
    Return (strip sql_text).


(** ** The executor *)

(** The pattern of line 100, [re.search(r'\\blimit\\b', sql,
    re.IGNORECASE)]: a literal backslash, the letter [b], [limit], a
    literal backslash, the letter [b]. *)
Definition LIMIT_RE : pattern :=
  {| at_start := false;
     body := Seqs [Lit backslash; Lit "b"; Word (lit "limit");
                   Lit backslash; Lit "b"];
     pflags := I |}.

(** The text of line 101, [f"{sql.rstrip(';')}\\nLIMIT {int(limit)};"].
    The literal is not a raw string, so [\\] is the escape for one
    backslash and the letter [n] follows it: no line feed is produced. *)
Definition with_limit (sql : str) (limit : Z) : str :=
  rstrip_char semicolon sql ++ lit "\nLIMIT " ++ str_of_int limit ++ lit ";".

(** Lines 100-101. *)
Definition force_limit (sql : str) (limit : Z) : str :=
  if negb (search LIMIT_RE sql) then with_limit sql limit else sql.

Section Executor.

(** The values the database returns in a row. *)
Variable value : Type.

(** A row of a [RealDictCursor]: an ordered mapping from column names to
    values. *)
Definition row : Type := list (str * value).

(** The text of the [error] field of a failure result. *)
Inductive message : Type :=
| NoDriver                 (* line 97: psycopg2 не установлен *)
| GuardText (why : rejection)
| Text (s : str).

(** [str(e)] *)
Definition str_of_exn (e : exn) : message :=
  match e with
  | ValueError why => GuardText why
  | DriverError s => Text s
  end.

(** The dictionaries [run_sql] returns: the one with the key [ok], and
    the one with the single key [error]. *)
Inductive result : Type :=
| Success (elapsed_ms row_count preview_limit : Z)
          (columns : list str) (rows : list row)
| Failure (error : message).

(** The calls made on the driver. *)
Inductive event : Type :=
| Connect (ok : bool)   (* [psycopg2.connect(POSTGRES_DSN)], and whether it returned *)
| SetAutocommit         (* [conn.autocommit = False] *)
| OpenCursor            (* [conn.cursor(cursor_factory=RealDictCursor)] *)
| Execute (sql : str)   (* [cur.execute(sql)] *)
| Fetchall              (* [cur.fetchall()] *)
| CloseCursor           (* leaving the [with] block *)
| Close.                (* [conn.close()] *)

(** What the data store does on each call: [Some m] when the call raises
    an exception [e] with [str(e) = m]. *)
Record datastore : Type := {
  connect_raises : option str;
  autocommit_raises : option str;
  cursor_raises : option str;
  execute_raises : str -> option str;
  fetchall_result : str -> str + list row;
  cursor_exit_raises : option str;
  close_raises : option str
}.

(** What surrounds one call of [run_sql]: whether [import psycopg2]
    succeeded, the data store, and the rounded time in milliseconds
    between the two readings of the clock. *)
Record environment : Type := {
  psycopg2_installed : bool;
  store : datastore;
  elapsed : Z
}.

(** The connection object. *)
Inductive connection : Type := PgConnection.

(** The local variable [conn] and the log of driver calls. *)
Record frame : Type := {
  conn : option connection;
  log : list event
}.

(** Computations of the executor: they read and change the frame, and
    return or raise. *)
Definition M (A : Type) : Type := frame -> outcome A * frame.

Definition ret {A : Type} (a : A) : M A := fun f => (Return a, f).

Definition raise {A : Type} (e : exn) : M A := fun f => (Raise e, f).

Definition bind {A B : Type} (m : M A) (k : A -> M B) : M B :=
  fun f =>
    match m f with
    | (Return a, f') => k a f'
    | (Raise e, f') => (Raise e, f')
    end.

(** [try: m except Exception as e: h e] *)
Definition try_except {A : Type} (m : M A) (h : exn -> M A) : M A :=
  fun f =>
    match m f with
    | (Return a, f') => (Return a, f')
    | (Raise e, f') => h e f'
    end.

(** [try: m finally: fin].  The final block runs whatever [m] did; when
    it raises, its exception replaces the outcome of [m]. *)
Definition try_finally {A : Type} (m : M A) (fin : M unit) : M A :=
  fun f =>
    match m f with
    | (o, f') =>
        match fin f' with
        | (Return _, f'') => (o, f'')
        | (Raise e, f'') => (Raise e, f'')
        end
    end.

(** A value or an exception computed without effect. *)
Definition lift {A : Type} (o : outcome A) : M A := fun f => (o, f).

(** One call on the driver: it is logged, then raises or returns. *)
Definition call (ev : event) (raises : option str) : M unit :=
  fun f =>
    (match raises with
     | Some m => Raise (DriverError m)
     | None => Return tt
     end,
     {| conn := conn f; log := log f ++ [ev] |}).

Definition set_conn (c : option connection) : M unit :=
  fun f => (Return tt, {| conn := c; log := log f |}).

Definition get_conn : M (option connection) :=
  fun f => (Return (conn f), f).

Notation "x <- m ;; k" := (bind m (fun x => k))
  (at level 61, m at next level, right associativity).
Notation "m ;;; k" := (bind m (fun _ => k))
  (at level 61, right associativity).

Variable env : environment.

Let db : datastore := store env.

(** [psycopg2.connect(POSTGRES_DSN)] *)
Definition connect : M connection :=
  fun f =>
    match connect_raises db with
    | Some m =>
        (Raise (DriverError m),
         {| conn := conn f; log := log f ++ [Connect false] |})
    | None =>
        (Return PgConnection,
         {| conn := conn f; log := log f ++ [Connect true] |})
    end.

(** [cur.fetchall()] after [cur.execute(sql)] *)
Definition fetchall (sql : str) : M (list row) :=
  call Fetchall None ;;;
  match fetchall_result db sql with
  | inl m => raise (DriverError m)
  | inr rows => ret rows
  end.

(** [with conn.cursor(cursor_factory=RealDictCursor) as cur: body].  The
    cursor's exit closes it and lets an exception of the body pass. *)
Definition with_cursor {A : Type} (body : M A) : M A :=
  call OpenCursor (cursor_raises db) ;;;
  try_finally body (call CloseCursor (cursor_exit_raises db)).

(** [list(preview[0].keys()) if preview else []] *)
Definition columns_of (preview : list row) : list str :=
  match preview with
  | [] => []
  | first :: _ => map fst first
  end.

(** Lines 104-120, the body of the [try]. *)
Definition query (sql : str) (limit : Z) : M result :=
  c <- connect ;;
  set_conn (Some c) ;;;
  call SetAutocommit (autocommit_raises db) ;;;
  rows <- with_cursor (call (Execute sql) (execute_raises db sql) ;;;
                       fetchall sql) ;;
  let preview := slice_to rows limit in
  ret (Success (elapsed env) (Z.of_nat (List.length rows)) limit
               (columns_of preview) preview).

(** Lines 124-127, the body of the [finally]. *)
Definition release : M unit :=
  try_except
    (c <- get_conn ;;
     match c with
     | Some _ => call Close (close_raises db)
     | None => ret tt
     end)
    (fun _ => ret tt).

(** [run_sql(sql_text, limit)] *)
Definition run_sql (sql_text : str) (limit : Z) : M result :=
  if negb (psycopg2_installed env) then ret (Failure NoDriver)
  else
    sql <- lift (guard_sql sql_text) ;;
    let sql := force_limit sql limit in
    set_conn None ;;;
    try_finally
      (try_except (query sql limit) (fun e => ret (Failure (str_of_exn e))))
      release.

(** One call of [run_sql] from outside: its outcome and the driver calls
    it made. *)
Definition run_sql_call (sql_text : str) (limit : Z)
  : outcome result * list event :=
  match run_sql sql_text limit {| conn := None; log := [] |} with
  | (o, f) => (o, log f)
  end.

End Executor.

Arguments Success {value}.
Arguments Failure {value}.
Arguments run_sql {value}.
Arguments run_sql_call {value}.
Arguments force_limit : simpl never.
Arguments guard_sql : simpl never.
Arguments connect_raises {value}.
Arguments autocommit_raises {value}.
Arguments cursor_raises {value}.
Arguments execute_raises {value}.
Arguments fetchall_result {value}.
Arguments cursor_exit_raises {value}.
Arguments close_raises {value}.
Arguments psycopg2_installed {value}.
Arguments store {value}.
Arguments elapsed {value}.

(** *** Reading the log and the data store *)

(** Is a connection held after the calls of the log, when [held] says
    whether one was held before?  A connection is held from a [connect]
    that returned until [close] is called on it. *)
Fixpoint held_after (held : bool) (lg : list event) : bool :=
  match lg with
  | [] => held
  | Connect true :: lg' => held_after true lg'
  | Close :: lg' => held_after false lg'
  | _ :: lg' => held_after held lg'
  end.

Definition is_connect (ev : event) : bool :=
  match ev with
  | Connect _ => true
  | _ => false
  end.

Definition is_execute (ev : event) : bool :=
  match ev with
  | Execute _ => true
  | _ => false
  end.

(** How many calls of the log satisfy [p]. *)
Definition calls (p : event -> bool) (lg : list event) : nat :=
  List.length (filter p lg).

(** The data store raises an exception with text [m] while the code
    connects, prepares the connection and the cursor, executes [sql] or
    fetches its rows, every earlier call having returned (and, for an
    exception inside the [with] block, the cursor closing quietly). *)
Inductive raises_during {value : Type} (db : datastore value) (sql : str)
  : str -> Prop :=
| in_connect m :
    connect_raises db = Some m -> raises_during db sql m
| in_autocommit m :
    connect_raises db = None -> autocommit_raises db = Some m ->
    raises_during db sql m
| in_cursor m :
    connect_raises db = None -> autocommit_raises db = None ->
    cursor_raises db = Some m -> raises_during db sql m
| in_execute m :
    connect_raises db = None -> autocommit_raises db = None ->
    cursor_raises db = None -> execute_raises db sql = Some m ->
    cursor_exit_raises db = None -> raises_during db sql m
| in_fetchall m :
    connect_raises db = None -> autocommit_raises db = None ->
    cursor_raises db = None -> execute_raises db sql = None ->
    fetchall_result db sql = inl m ->
    cursor_exit_raises db = None -> raises_during db sql m.

(** ** The rules in the words of the specification

    The definitions of this module are not read off the source: each one
    writes out a rule of the specification as it is worded there, for
    comparison with what [guard_sql] and [run_sql] compute. *)

Module Spec.

(** A word character ([\w]) among the code points below 256: digits,
    letters, the underscore, and the letters and numeric signs of the
    upper half. *)
Definition is_word_char (c : ascii) : bool :=
  let n := N_of_ascii c in
  ((48 <=? n) && (n <=? 57) || (65 <=? n) && (n <=? 90) || (n =? 95)
   || (97 <=? n) && (n <=? 122)
   || (n =? 170) || (n =? 178) || (n =? 179) || (n =? 181) || (n =? 185)
   || (n =? 186) || (188 <=? n) && (n <=? 190)
   || (192 <=? n) && (n <=? 214) || (216 <=? n) && (n <=? 246)
   || (248 <=? n))%N.

(** [s] begins with the word [w], letter case ignored. *)
Fixpoint starts_with_ci (w s : str) : bool :=
  match w, s with
  | [], _ => true
  | c :: w', x :: s' => Ascii.eqb (lower c) (lower x) && starts_with_ci w' s'
  | _ :: _, [] => false
  end.

(** A word can end before [rest]: the text ends, or a character follows
    that is not a word character. *)
Definition word_ends (rest : str) : bool :=
  match rest with
  | [] => true
  | c :: _ => negb (is_word_char c)
  end.

(** A word can begin after [prev]: the text begins, or the character
    before is not a word character. *)
Definition word_begins (prev : option ascii) : bool :=
  match prev with
  | None => true
  | Some c => negb (is_word_char c)
  end.

(** [s] begins with [w] and the word ends there. *)
Definition keyword_at (w s : str) : bool :=
  starts_with_ci w s && word_ends (skipn (List.length w) s).

(** Rule 1: after leading whitespace the text begins with the keyword
    WITH or SELECT, in any letter case, at a word boundary. *)
Definition leading_clause (text : str) : bool :=
  let t := lstrip text in
  keyword_at (lit "with") t || keyword_at (lit "select") t.

(** [w] occurs in [s] as a whole word, in any letter case; [prev] is the
    character before [s]. *)
Fixpoint whole_word_from (w : str) (prev : option ascii) (s : str) : bool :=
  word_begins prev && keyword_at w s ||
  match s with
  | [] => false
  | c :: s' => whole_word_from w (Some c) s'
  end.

Definition contains_word (w : string) (text : str) : bool :=
  whole_word_from (lit w) None text.

(** Rule 2 fails: one of the forbidden verbs occurs as a whole word. *)
Definition contains_forbidden_verb (text : str) : bool :=
  existsb (fun w => contains_word w text) forbidden_verbs.

(** Rule 3: [FROM], whitespace, [public], a dot with optional whitespace
    around it, and the view name with optional double quotes, in any
    letter case. *)
Definition target_reference : pattern :=
  {| at_start := false;
     body := Seqs [Word (lit "from"); Plus Space; Word (lit "public");
                   Star Space; Lit "."; Star Space; Opt (Lit dquote);
                   Word (lit "PurchaseAllView"); Opt (Lit dquote)];
     pflags := I |}.

Definition references_target (text : str) : bool :=
  search target_reference text.

(** Rule 4 fails: after trimming, and after stripping one trailing
    semicolon if there is one, a semicolon remains. *)
Definition semicolon_remains (text : str) : bool :=
  let t := strip text in
  let t' :=
    match rev t with
    | c :: _ => if Ascii.eqb c semicolon then removelast t else t
    | [] => t
    end in
  contains_char semicolon t'.

(** The executor's step 2: the text has a whole-word LIMIT. *)
Definition has_limit_clause (text : str) : bool :=
  contains_word "limit" text.

End Spec.

(** ** Sample data *)

Module Sample.

(** Three rows with one column. *)
Definition three_rows : list (row Z) :=
  [[(lit "id", 1%Z)]; [(lit "id", 2%Z)]; [(lit "id", 3%Z)]].

(** A data store that answers every call, with the three rows. *)
Definition quiet : datastore Z :=
  {| connect_raises := None;
     autocommit_raises := None;
     cursor_raises := None;
     execute_raises := fun _ => None;
     fetchall_result := fun _ => inr three_rows;
     cursor_exit_raises := None;
     close_raises := None |}.

(** A data store that rejects every statement. *)
Definition rejecting : datastore Z :=
  {| connect_raises := None;
     autocommit_raises := None;
     cursor_raises := None;
     execute_raises := fun _ => Some (lit "syntax error");
     fetchall_result := fun _ => inr [];
     cursor_exit_raises := None;
     close_raises := None |}.

(** A data store that cannot be reached. *)
Definition unreachable : datastore Z :=
  {| connect_raises := Some (lit "connection refused");
     autocommit_raises := None;
     cursor_raises := None;
     execute_raises := fun _ => None;
     fetchall_result := fun _ => inr [];
     cursor_exit_raises := None;
     close_raises := None |}.

(** The driver is installed and the two clock readings are 12 ms apart. *)
Definition with_store (db : datastore Z) : environment Z :=
  {| psycopg2_installed := true; store := db; elapsed := 12 |}.

(** A text that [guard_sql] accepts. *)
Definition accepted : str :=
  lit "\select\b * from\spublic\\.\PurchaseAllView".

(** A text that [guard_sql] accepts and that ends in a LIMIT clause. *)
Definition accepted_with_limit : str :=
  lit "\with\b t AS (SELECT * from\spublic\\.\PurchaseAllView) SELECT * FROM t LIMIT 5".

End Sample.

(** ** Shapes of matched words *)

Module Shape.

(** No word the pattern matches ends in a whitespace character. *)
Fixpoint solid_end (r : regex) : bool :=
  match r with
  | Void => true
  | Eps => true
  | Lit c => negb (isspace c)
  | Dot => false
  | Space => false
  | Seq r1 r2 => solid_end r2 && (solid_end r1 || negb (nullable r2))
  | Alt r1 r2 => solid_end r1 && solid_end r2
  | Star r1 => solid_end r1
  end.

(** No word the pattern matches begins with a whitespace character. *)
Fixpoint solid_start (r : regex) : bool :=
  match r with
  | Void => true
  | Eps => true
  | Lit c => negb (isspace c)
  | Dot => false
  | Space => false
  | Seq r1 r2 => solid_start r1 && (solid_start r2 || negb (nullable r1))
  | Alt r1 r2 => solid_start r1 && solid_start r2
  | Star r1 => solid_start r1
  end.

End Shape.

(** ** The runner of API plans, [run_api_plan] (lines 129-164) *)

Module Api.

(** Equality of two strings. *)
Fixpoint str_eqb (a b : str) : bool :=
  match a, b with
  | [], [] => true
  | x :: a', y :: b' => Ascii.eqb x y && str_eqb a' b'
  | _, _ => false
  end.

(** [b] begins with [a]. *)
Fixpoint starts_with (a b : str) : bool :=
  match a, b with
  | [], _ => true
  | x :: a', y :: b' => Ascii.eqb x y && starts_with a' b'
  | _ :: _, [] => false
  end.

(** [a in b] on two strings: [a] occurs in [b]. *)
Fixpoint occurs_in (a b : str) : bool :=
  starts_with a b ||
  match b with
  | [] => false
  | _ :: b' => occurs_in a b'
  end.

(** The two exceptions the plan runner lets through: a [.get] on a value
    that is not a dict, and an iteration or membership test on a value
    that has neither. *)
Inductive fault : Type :=
| AttributeError
| TypeError.

Inductive answer (A : Type) : Type :=
| Ok (a : A)
| Fault (e : fault).

Arguments Ok {A} a.
Arguments Fault {A} e.

Section Runner.

(** The numbers of JSON, and [bool(n)] on them. *)
Variable number : Type.
Variable nonzero : number -> bool.

(** What [json.loads] and [resp.json()] return.  A dict is the list of
    its items; a key is read at its first occurrence. *)
#[local] Unset Elimination Schemes.
Inductive json : Type :=
| JNull
| JBool (b : bool)
| JNum (n : number)
| JStr (s : str)
| JList (l : list json)
| JDict (items : list (str * json)).
#[local] Set Elimination Schemes.

(** [bool(v)] *)
Definition truthy (v : json) : bool :=
  match v with
  | JNull => false
  | JBool b => b
  | JNum n => nonzero n
  | JStr [] => false
  | JStr (_ :: _) => true
  | JList [] => false
  | JList (_ :: _) => true
  | JDict [] => false
  | JDict (_ :: _) => true
  end.

(** [v or d] *)
Definition or_else (v d : json) : json := if truthy v then v else d.

Fixpoint lookup (k : str) (items : list (str * json)) : option json :=
  match items with
  | [] => None
  | (k', v) :: items' => if str_eqb k k' then Some v else lookup k items'
  end.

(** [v.get(k)]: the value or [None] on a dict, an [AttributeError] on
    anything else. *)
Definition get (v : json) (k : string) : answer json :=
  match v with
  | JDict items =>
      Ok (match lookup (lit k) items with
          | Some x => x
          | None => JNull
          end)
  | _ => Fault AttributeError
  end.

(** The keys of a dict, each once. *)
Fixpoint keys (items : list (str * json)) : list str :=
  match items with
  | [] => []
  | (k, _) :: items' =>
      k :: filter (fun k' => negb (str_eqb k k')) (keys items')
  end.

(** What [for c in v] runs through. *)
Definition elements (v : json) : answer (list json) :=
  match v with
  | JList l => Ok l
  | JStr s => Ok (map (fun c => JStr [c]) s)
  | JDict items => Ok (map JStr (keys items))
  | JNull | JBool _ | JNum _ => Fault TypeError
  end.

(** [k in v] for a string [k]. *)
Definition contains (v : json) (k : string) : answer bool :=
  match v with
  | JList l =>
      Ok (existsb (fun e => match e with
                            | JStr s => str_eqb s (lit k)
                            | _ => false
                            end) l)
  | JStr s => Ok (occurs_in (lit k) s)
  | JDict items =>
      Ok (match lookup (lit k) items with
          | Some _ => true
          | None => false
          end)
  | JNull | JBool _ | JNum _ => Fault TypeError
  end.

(** One element of [results]: the dict with the key [error], or the dict
    with [raw] and the extracted fields that were asked for. *)
Inductive entry : Type :=
| Failed (id : json) (error : str)
| Fetched (id raw : json)
          (current_status last_change_at history : option json).

Definition entry_id (e : entry) : json :=
  match e with
  | Failed id _ => id
  | Fetched id _ _ _ _ => id
  end.

(** The text of an [error] result. *)
Inductive plan_error : Type :=
| NoRequests               (* line 131: requests не установлен *)
| BadPlan (e : str).       (* line 135: Плохой JSON плана API: {e} *)

(** The three dictionaries [run_api_plan] returns. *)
Inductive plan_result : Type :=
| PlanError (m : plan_error)
| NoApi
| Done (merge_key : json) (results : list entry).

(** What surrounds a call: whether [import requests] succeeded, what
    [json.loads] does with a text (the text of its exception, or the
    value), and what the [n]-th request of the call, to [url], ends in
    (the text of the exception of [get], [raise_for_status] or [json], or
    the decoded body).  The [timeout] is only handed on to [requests] and
    is left out. *)
Variable requests_installed : bool.
Variable loads : str -> str + json.
Variable http : nat -> json -> str + json.

(** Lines 157-158 and the like: the field [k], when [extract] asks for
    it. *)
Definition field (extract data : json) (k : string) : answer (option json) :=
  match contains extract k with
  | Fault e => Fault e
  | Ok false => Ok None
  | Ok true =>
      match get data k with
      | Fault e => Fault e
      | Ok v => Ok (Some v)
      end
  end.

(** Lines 156-162. *)
Definition fetched (extract cid data : json) : answer entry :=
  match field extract data "current_status" with
  | Fault e => Fault e
  | Ok f1 =>
      match field extract data "last_change_at" with
      | Fault e => Fault e
      | Ok f2 =>
          match field extract data "history" with
          | Fault e => Fault e
          | Ok f3 => Ok (Fetched cid data f1 f2 f3)
          end
      end
  end.

(** Lines 143-163, the loop: [n] requests have been made, [results] and
    the URLs requested so far are carried along. *)
Fixpoint run_calls (extract : json) (calls : list json) (n : nat)
    (results : list entry) (requested : list json)
  : answer (list entry) * list json :=
  match calls with
  | [] => (Ok results, requested)
  | c :: calls' =>
      match get c "id" with
      | Fault e => (Fault e, requested)
      | Ok cid =>
          match get c "url" with
          | Fault e => (Fault e, requested)
          | Ok url =>
              if negb (truthy cid) || negb (truthy url) then
                run_calls extract calls' n results requested
              else
                match http n url with
                | inl e =>
                    run_calls extract calls' (S n)
                      (results ++ [Failed cid e]) (requested ++ [url])
                | inr data =>
                    match fetched extract cid data with
                    | Fault e => (Fault e, requested ++ [url])
                    | Ok out =>
                        run_calls extract calls' (S n)
                          (results ++ [out]) (requested ++ [url])
                    end
                end
          end
      end
  end.

(** Lines 136-164, for the parsed plan. *)
Definition run_plan (plan : json) : answer plan_result * list json :=
  match get plan "need_api", get plan "calls",
        get plan "merge_key", get plan "extract" with
  | Ok need, Ok calls, Ok merge_key, Ok extract =>
      let need_api := truthy need in
      let calls := or_else calls (JList []) in
      let merge_key := or_else merge_key (JStr (lit "PurchaseCardId")) in
      let extract := or_else extract (JList []) in
      if negb need_api then (Ok NoApi, [])
      else
        match elements calls with
        | Fault e => (Fault e, [])
        | Ok cs =>
            match run_calls extract cs 0 [] [] with
            | (Ok results, requested) => (Ok (Done merge_key results), requested)
            | (Fault e, requested) => (Fault e, requested)
            end
        end
  | Fault e, _, _, _ => (Fault e, [])
  | _, Fault e, _, _ => (Fault e, [])
  | _, _, Fault e, _ => (Fault e, [])
  | _, _, _, Fault e => (Fault e, [])
  end.

(** [run_api_plan(plan_json)]: what it returns or raises, and the URLs
    it requested, in order. *)
Definition run_api_plan (plan_json : str) : answer plan_result * list json :=
  if negb requests_installed then (Ok (PlanError NoRequests), [])
  else
    match loads (str_or plan_json (lit "{}")) with
    | inl e => (Ok (PlanError (BadPlan e)), [])
    | inr plan => run_plan plan
    end.

(** A call of the plan that is requested: its [id] and [url] are both
    true values. *)
Definition requested_call (c : json) : bool :=
  match get c "id", get c "url" with
  | Ok cid, Ok url => truthy cid && truthy url
  | _, _ => false
  end.

Definition id_of (c : json) : json :=
  match get c "id" with
  | Ok v => v
  | Fault _ => JNull
  end.

Definition url_of (c : json) : json :=
  match get c "url" with
  | Ok v => v
  | Fault _ => JNull
  end.

Definition is_failed (e : entry) : bool :=
  match e with
  | Failed _ _ => true
  | Fetched _ _ _ _ _ => false
  end.

Definition is_dict (v : json) : bool :=
  match v with
  | JDict _ => true
  | _ => false
  end.

End Runner.

Arguments JNull {number}.
Arguments JBool {number}.
Arguments JStr {number}.
Arguments JList {number}.
Arguments JDict {number}.
Arguments Failed {number}.
Arguments Fetched {number}.
Arguments PlanError {number}.
Arguments NoApi {number}.
Arguments Done {number}.
Arguments entry_id {number}.
Arguments is_failed {number}.
Arguments is_dict {number}.

End Api.

(** ** The state kept in the session, [get_state] and [set_state]
    (lines 59-75) *)

Module Session.

(** The dict under the key [state] of the session, as the list of its
    items; all its values are strings. *)
Definition state : Type := list (str * str).

Fixpoint lookup (k : str) (d : state) : option str :=
  match d with
  | [] => None
  | (k', v) :: d' => if Api.str_eqb k k' then Some v else lookup k d'
  end.

(** [d[k] = v]: the value of an existing key is replaced where it stands,
    a new key is put at the end. *)
Fixpoint assign (k v : str) (d : state) : state :=
  match d with
  | [] => [(k, v)]
  | (k', v') :: d' =>
      if Api.str_eqb k k' then (k', v) :: d' else (k', v') :: assign k v d'
  end.

(** [d.update(u)] *)
Definition update (d u : state) : state :=
  fold_left (fun acc kv => assign (fst kv) (snd kv) acc) u d.

(** The seven keys of lines 62-68. *)
Definition step_keys : list string :=
  ["question"; "step1_router_json"; "step2_norm_json"; "step3_sql_text";
   "step4_api_json"; "step5_sql_result_json"; "step6_api_result_json"]%string.

(** The dict of lines 61-69: every key with the empty string. *)
Definition fresh : state := map (fun k => (lit k, [])) step_keys.

(** The session: [None] when it has no key [state]. *)
Definition session : Type := option state.

(** [get_state()]: what it returns and the session it leaves. *)
Definition get_state (sess : session) : state * session :=
  match sess with
  | None => (fresh, Some fresh)
  | Some st => (st, Some st)
  end.

(** [set_state(updates)]: the session it leaves. *)
Definition set_state (updates : state) (sess : session) : session :=
  match get_state sess with
  | (st, _) => Some (update st updates)
  end.

(** The route [start] (lines 381-393) for the form value [question]
    ([None] when the form has none): the trimmed question is stored and
    every step output is emptied. *)
Definition start (question : option str) (sess : session) : session :=
  let q := match question with
           | Some q => q
           | None => []
           end in
  set_state
    ((lit "question", strip (str_or q []))
     :: map (fun k => (lit k, [])) (tl step_keys))
    sess.

End Session.

(** ** Sample plans *)

Module ApiSample.

(** Integers as the numbers of JSON. *)
Definition nonzero (z : Z) : bool := negb (z =? 0)%Z.

Definition call (id : Z) (url : string) : Api.json Z :=
  Api.JDict [(lit "id", Api.JNum Z id); (lit "url", Api.JStr (lit url))].

(** Three calls, the second without a URL. *)
Definition calls : list (Api.json Z) :=
  [call 7%Z "http://a/7";
   Api.JDict [(lit "id", Api.JNum Z 8%Z)];
   call 9%Z "http://a/9"].

Definition plan_items (need_api : bool) : list (str * Api.json Z) :=
  [(lit "need_api", Api.JBool need_api);
   (lit "calls", Api.JList calls);
   (lit "extract", Api.JList [Api.JStr (lit "current_status")])].

Definition plan (need_api : bool) : Api.json Z :=
  Api.JDict (plan_items need_api).

(** A parser that knows one text. *)
Definition loads (p : Api.json Z) (text : str) : str + Api.json Z :=
  if Api.str_eqb text (lit "the plan") then inr p
  else inl (lit "Expecting value").

(** The first request times out, every later one is answered. *)
Definition http (body : Api.json Z) (n : nat) (url : Api.json Z)
  : str + Api.json Z :=
  match n with
  | O => inl (lit "timed out")
  | S _ => inr body
  end.

Definition status : Api.json Z :=
  Api.JDict [(lit "current_status", Api.JStr (lit "done"))].

End ApiSample.

(** * Properties *)

(** ** The executable matcher agrees with the relation *)

Section MatcherCorrect.

Variable fl : flags.

Lemma nullable_lang (r : regex) : nullable r = true <-> lang fl r [].
Proof.
  split.
  - induction r; simpl; intros H; try discriminate.
    + constructor.
    + apply andb_prop in H as [H1 H2].
      change (@nil ascii) with (@nil ascii ++ []). constructor; auto.
    + apply orb_prop in H as [H | H]; [apply L_alt_l | apply L_alt_r]; auto.
    + constructor.
  - intros H. remember (@nil ascii) as w eqn:E.
    induction H; simpl; try discriminate; auto.
    + apply app_eq_nil in E as [-> ->]. rewrite IHlang1, IHlang2; auto.
    + rewrite IHlang; auto.
    + rewrite IHlang; auto using orb_true_r.
Qed.

Lemma deriv_sound (x : ascii) (r : regex) :
  forall s, lang fl (deriv fl x r) s -> lang fl r (x :: s).
Proof.
  induction r; simpl; intros s H.
  - inversion H.
  - inversion H.
  - destruct (lit_matches fl c x) eqn:E; inversion H; subst. now constructor.
  - destruct (dot_matches fl x) eqn:E; inversion H; subst. now constructor.
  - destruct (isspace x) eqn:E; inversion H; subst. now constructor.
  - assert (Hseq : forall w, lang fl (Seq (deriv fl x r1) r2) w ->
                             lang fl (Seq r1 r2) (x :: w)).
    { intros w Hw. inversion Hw; subst.
      change (x :: u ++ v) with ((x :: u) ++ v). constructor; auto. }
    destruct (nullable r1) eqn:N.
    + inversion H; subst; auto.
      change (x :: s) with ([] ++ x :: s). constructor; auto.
      now apply nullable_lang.
    + auto.
  - inversion H; subst; [apply L_alt_l | apply L_alt_r]; auto.
  - inversion H; subst. constructor; auto.
Qed.

Lemma deriv_complete (r : regex) (w : str) :
  lang fl r w -> forall x s, w = x :: s -> lang fl (deriv fl x r) s.
Proof.
  induction 1; intros y s E; simpl; try discriminate.
  - injection E as -> <-. rewrite H. constructor.
  - injection E as -> <-. rewrite H. constructor.
  - injection E as -> <-. rewrite H. constructor.
  - destruct u as [|a u].
    + simpl in E. apply nullable_lang in H. rewrite H.
      apply L_alt_r. eauto.
    + simpl in E. injection E as -> <-.
      assert (Hs : lang fl (Seq (deriv fl y r1) r2) (u ++ v))
        by (constructor; eauto).
      destruct (nullable r1); [apply L_alt_l|]; exact Hs.
  - apply L_alt_l. eauto.
  - apply L_alt_r. eauto.
  - injection E as -> <-. constructor; eauto.
Qed.

Lemma deriv_lang (x : ascii) (r : regex) (s : str) :
  lang fl (deriv fl x r) s <-> lang fl r (x :: s).
Proof.
  split; [apply deriv_sound | intros H; eapply deriv_complete; eauto].
Qed.

Lemma match_prefix_lang (s : str) :
  forall r, match_prefix fl r s = true <->
            exists u v, s = u ++ v /\ lang fl r u.
Proof.
  induction s as [|x s IH]; intros r; simpl.
  - rewrite orb_false_r, nullable_lang. split.
    + intros H. exists [], []. auto.
    + intros (u & v & E & H). symmetry in E.
      apply app_eq_nil in E as [-> _]. exact H.
  - rewrite orb_true_iff, nullable_lang, IH. split.
    + intros [H | (u & v & -> & H)].
      * exists [], (x :: s). auto.
      * exists (x :: u), v. split; auto. now apply deriv_lang.
    + intros (u & v & E & H). destruct u as [|a u].
      * now left.
      * simpl in E. injection E as -> ->. right.
        exists u, v. split; auto. now apply deriv_lang.
Qed.

Lemma match_anywhere_lang (r : regex) (s : str) :
  match_anywhere fl r s = true <->
  exists p u v, s = p ++ u ++ v /\ lang fl r u.
Proof.
  induction s as [|x s IH]; cbn [match_anywhere].
  - rewrite orb_false_r, match_prefix_lang. split.
    + intros (u & v & E & H). exists [], u, v. auto.
    + intros (p & u & v & E & H). symmetry in E.
      apply app_eq_nil in E as [_ E]. apply app_eq_nil in E as [-> _].
      exists [], []. auto.
  - rewrite orb_true_iff, match_prefix_lang, IH. split.
    + intros [(u & v & E & H) | (p & u & v & -> & H)].
      * exists [], u, v. auto.
      * exists (x :: p), u, v. auto.
    + intros (p & u & v & E & H). destruct p as [|a p].
      * left. exists u, v. auto.
      * simpl in E. injection E as -> ->. right. exists p, u, v. auto.
Qed.

End MatcherCorrect.


(** ** The guard *)

Lemma str_or_empty (s : str) : str_or s [] = s.
Proof. destruct s; reflexivity. Qed.

(** Under [re.IGNORECASE] a backslash of the pattern matches a backslash
    only. *)
Lemma lit_backslash (fl : flags) (x : ascii) :
  lit_matches fl backslash x = true -> x = backslash.
Proof.
  unfold lit_matches. destruct (IGNORECASE fl).
  - destruct x as [[] [] [] [] [] [] [] []]; vm_compute; intros H;
      try discriminate H; reflexivity.
  - intros H. apply Ascii.eqb_eq in H. auto.
Qed.

(** Whatever [_SQL_ALLOW_RE] matches begins with a backslash. *)
Lemma allow_begins_with_backslash (s : str) :
  search _SQL_ALLOW_RE s = true -> exists s', s = backslash :: s'.
Proof.
  unfold search. cbn [at_start _SQL_ALLOW_RE body pflags].
  intros H. apply match_prefix_lang in H as (u & v & -> & L).
  cbn [Seqs] in L. inversion L as [ | | | | r1 r2 u1 u2 L1 L2 | | | | ]; subst.
  inversion L1 as [ | c x Hx | | | | | | | ]; subst.
  apply lit_backslash in Hx. subst x. simpl. eauto.
Qed.

Lemma guard_sql_first_rule (s : str) :
  search _SQL_ALLOW_RE s = false ->
  guard_sql s = Raise (ValueError NotAReadStatement).
Proof.
  intros H. unfold guard_sql. rewrite str_or_empty, H. reflexivity.
Qed.

(** A text that does not begin with a backslash fails the first check. *)
Lemma guard_sql_needs_backslash (s : str) :
  hd_error s <> Some backslash ->
  guard_sql s = Raise (ValueError NotAReadStatement).
Proof.
  intros H. apply guard_sql_first_rule.
  destruct (search _SQL_ALLOW_RE s) eqn:E; auto.
  apply allow_begins_with_backslash in E as (s' & ->). now elim H.
Qed.

(** C10.  On the empty string and on every string made of whitespace
    only, [guard_sql] raises its [ValueError] of the first check (the text
    of [NotAReadStatement]) and nothing else: the later checks are not
    reached. *)
Theorem guard_sql_blank_input (s : str) :
  forallb isspace s = true ->
  guard_sql s = Raise (ValueError NotAReadStatement).
Proof.
  intros H. apply guard_sql_needs_backslash.
  destruct s as [|c s]; simpl; [discriminate|].
  simpl in H. apply andb_prop in H as [Hc _].
  intros E. injection E as ->. discriminate Hc.
Qed.

Lemma guard_sql_blank_input_witness :
  forallb isspace (lit "   ") = true /\
  guard_sql (lit "   ") = Raise (ValueError NotAReadStatement).
Proof.
  split; [reflexivity|]. apply (guard_sql_blank_input (lit "   ")); reflexivity.
Defined.

(** A text that meets the leading-clause rule as the specification words
    it does not begin with a backslash. *)
Lemma leading_clause_no_backslash (text : str) :
  Spec.leading_clause text = true -> hd_error text <> Some backslash.
Proof.
  destruct text as [|c t]; intros H E; [discriminate E|].
  injection E as ->. vm_compute in H. discriminate H.
Qed.

(** C2.  A text that begins with WITH or SELECT and has a forbidden verb
    as a whole word is rejected by [guard_sql], but by the first check,
    with the text of [NotAReadStatement]: the check for the verbs, which
    raises the text of [ForbiddenOperation], is not reached. *)
Theorem guard_sql_forbidden_verb_after_select (text : str) :
  Spec.leading_clause text = true ->
  Spec.contains_forbidden_verb text = true ->
  guard_sql text = Raise (ValueError NotAReadStatement) /\
  guard_sql text <> Raise (ValueError ForbiddenOperation).
Proof.
  intros H _. apply leading_clause_no_backslash in H.
  rewrite (guard_sql_needs_backslash text H). split; [reflexivity | discriminate].
Qed.

Lemma guard_sql_forbidden_verb_after_select_witness :
  let text := lit "SELECT id FROM public.PurchaseAllView; DROP TABLE x;" in
  Spec.leading_clause text = true /\
  Spec.contains_forbidden_verb text = true /\
  guard_sql text = Raise (ValueError NotAReadStatement) /\
  guard_sql text <> Raise (ValueError ForbiddenOperation).
Proof.
  intros text. split; [reflexivity|]. split; [reflexivity|].
  apply (guard_sql_forbidden_verb_after_select text); reflexivity.
Defined.

(** C7.  A text that does not begin with WITH or SELECT, but with a
    backslash, passes the first check of [guard_sql], and here all four:
    it is returned as accepted. *)
Theorem guard_sql_accepts_backslash_select :
  let text := lit "\select\b * from\spublic\\.\PurchaseAllView" in
  Spec.leading_clause text = false /\
  search _SQL_ALLOW_RE text = true /\
  guard_sql text = Return text.
Proof. vm_compute. auto. Qed.

(** C8.  A text without a FROM reference to the view as the
    specification words it passes the third check of [guard_sql] when it
    has the backslash form of the reference, and is accepted; and the
    text of the specification's third scenario, which names another
    table, is rejected by the first check, not the third. *)
Theorem guard_sql_target_check :
  let text := lit "\with\b t from\sspublic\s\-\sPurchaseAllView" in
  search _SQL_ALLOW_RE text = true /\
  search _SQL_FORBID_RE text = false /\
  Spec.references_target text = false /\
  guard_sql text = Return text /\
  guard_sql (lit "SELECT * FROM public.other_table")
  = Raise (ValueError NotAReadStatement).
Proof. vm_compute. auto 6. Qed.

(** ** The single-statement rule *)

Lemma contains_char_app (c : ascii) (a b : str) :
  contains_char c (a ++ b) = contains_char c a || contains_char c b.
Proof. apply existsb_app. Qed.

(** [';' in sql_text.strip()[:-1]] is the rule as the specification words
    it. *)
Lemma semicolon_check_refines (text : str) :
  contains_char semicolon (drop_last (strip text))
  = Spec.semicolon_remains text.
Proof.
  unfold Spec.semicolon_remains, drop_last.
  destruct (rev (strip text)) as [|c r] eqn:E.
  - apply (f_equal (@rev ascii)) in E. rewrite rev_involutive in E. simpl in E.
    rewrite E. reflexivity.
  - apply (f_equal (@rev ascii)) in E. rewrite rev_involutive in E. simpl in E.
    rewrite E, removelast_last.
    destruct (Ascii.eqb c semicolon) eqn:Ec.
    + reflexivity.
    + rewrite contains_char_app. unfold contains_char at 3. cbn [existsb].
      rewrite Ascii.eqb_sym, Ec. now rewrite !orb_false_r.
Qed.

Lemma lstrip_app_semicolon (a : str) :
  lstrip (a ++ [semicolon]) = lstrip a ++ [semicolon].
Proof.
  induction a as [|c a IH]; simpl; [reflexivity|].
  destruct (isspace c); auto.
Qed.

Lemma strip_app_semicolon (a : str) :
  strip (a ++ [semicolon]) = lstrip a ++ [semicolon].
Proof.
  unfold strip, rstrip. rewrite lstrip_app_semicolon, rev_app_distr. simpl.
  now rewrite rev_involutive.
Qed.

Lemma contains_char_lstrip (c : ascii) (s : str) :
  contains_char c s = false -> contains_char c (lstrip s) = false.
Proof.
  induction s as [|x s IH]; simpl; [auto|].
  intros H. apply orb_false_elim in H as [H1 H2].
  destruct (isspace x); [auto|]. simpl. now rewrite H1, H2.
Qed.

(** The fourth check on its own, for a text that has passed the three
    pattern checks of [guard_sql] as they are written: it raises the text
    of [MultipleStatements] exactly when, after trimming and after
    stripping one trailing semicolon if present, a semicolon remains. *)
Theorem guard_sql_single_statement (text : str) :
  search _SQL_ALLOW_RE text = true ->
  search _SQL_FORBID_RE text = false ->
  search _SQL_VIEW_RE text = true ->
  (Spec.semicolon_remains text = true ->
   guard_sql text = Raise (ValueError MultipleStatements)) /\
  (Spec.semicolon_remains text = false ->
   guard_sql text = Return (strip text)) /\
  (forall body, text = body ++ [semicolon] ->
                contains_char semicolon body = false ->
                guard_sql text = Return (strip text)).
Proof.
  intros Ha Hf Hv.
  assert (G : guard_sql text =
              if Spec.semicolon_remains text
              then Raise (ValueError MultipleStatements)
              else Return (strip text)).
  { unfold guard_sql.
    rewrite str_or_empty, Ha, Hf, Hv, semicolon_check_refines. reflexivity. }
  split; [|split].
  - intros H. now rewrite G, H.
  - intros H. now rewrite G, H.
  - intros body -> Hb. rewrite G.
    unfold Spec.semicolon_remains.
    rewrite strip_app_semicolon, rev_app_distr. simpl.
    rewrite removelast_last, (contains_char_lstrip _ _ Hb). reflexivity.
Qed.

Lemma guard_sql_single_statement_witness :
  let text := lit "\select\b 1; select 2 from\spublic\\.\PurchaseAllView " in
  search _SQL_ALLOW_RE text = true /\
  search _SQL_FORBID_RE text = false /\
  search _SQL_VIEW_RE text = true /\
  Spec.semicolon_remains text = true /\
  guard_sql text = Raise (ValueError MultipleStatements).
Proof.
  intros text.
  split; [reflexivity|]. split; [reflexivity|]. split; [reflexivity|].
  split; [reflexivity|].
  apply (guard_sql_single_statement text); reflexivity.
Defined.

(** C9.  A text that meets the first three rules as the specification
    words them (it begins with WITH or SELECT, has no forbidden verb and
    has a FROM reference to the view) and in which a semicolon remains
    after trimming and stripping one trailing semicolon is rejected by
    [guard_sql], but by the first check, with the text of
    [NotAReadStatement]: the check for semicolons, which raises the text
    of [MultipleStatements], is not reached. *)
Theorem guard_sql_inner_semicolon_after_select (text : str) :
  Spec.leading_clause text = true ->
  Spec.contains_forbidden_verb text = false ->
  Spec.references_target text = true ->
  Spec.semicolon_remains text = true ->
  guard_sql text = Raise (ValueError NotAReadStatement) /\
  guard_sql text <> Raise (ValueError MultipleStatements).
Proof.
  intros H _ _ _. apply leading_clause_no_backslash in H.
  rewrite (guard_sql_needs_backslash text H). split; [reflexivity | discriminate].
Qed.

Lemma guard_sql_inner_semicolon_after_select_witness :
  let text := lit "SELECT 1; SELECT 2 FROM public.PurchaseAllView" in
  Spec.leading_clause text = true /\
  Spec.contains_forbidden_verb text = false /\
  Spec.references_target text = true /\
  Spec.semicolon_remains text = true /\
  guard_sql text = Raise (ValueError NotAReadStatement) /\
  guard_sql text <> Raise (ValueError MultipleStatements).
Proof.
  intros text. split; [reflexivity|]. split; [reflexivity|].
  split; [reflexivity|]. split; [reflexivity|].
  apply (guard_sql_inner_semicolon_after_select text); reflexivity.
Defined.

(** ** The executor *)

Section ExecutorFacts.

Variable value : Type.
Variable env : environment value.

(** Unfolds one call of [run_sql] down to the answers of the data
    store. *)
Ltac unfold_run :=
  unfold run_sql_call, run_sql, query, release, with_cursor, fetchall,
    connect, call, bind, try_finally, try_except, lift, ret, raise,
    set_conn, get_conn.

(** Splits on the answer of the data store to each call, for the
    statement [q]. *)
Ltac store_cases q :=
  destruct (connect_raises (store env));
  [| destruct (autocommit_raises (store env));
     [| destruct (cursor_raises (store env));
        [| destruct (execute_raises (store env) q);
           [| destruct (fetchall_result (store env) q) eqn:? ];
           destruct (cursor_exit_raises (store env)) ] ] ];
  destruct (close_raises (store env)); cbn.

(** C1.  When [guard_sql] rejects the text, [run_sql] makes no call on the
    data store, but it does not return a failure result: the [ValueError]
    of the guard leaves [run_sql] as an exception. *)
Theorem run_sql_propagates_rejection (text : str) (limit : Z) (e : exn) :
  psycopg2_installed env = true ->
  guard_sql text = Raise e ->
  run_sql_call env text limit = (Raise e, []).
Proof.
  intros Hi Hg. unfold_run. rewrite Hi, Hg. reflexivity.
Qed.

(** C5.  Whatever the data store answers, no connection is held when
    [run_sql] is left; and when [connect] has returned a connection,
    [close] is the last call made on the driver. *)
Theorem run_sql_releases_connection (text : str) (limit : Z) :
  held_after false (snd (run_sql_call env text limit)) = false /\
  (In (Connect true) (snd (run_sql_call env text limit)) ->
   exists lg, snd (run_sql_call env text limit) = lg ++ [Close]).
Proof.
  unfold_run.
  destruct (psycopg2_installed env); cbn; [|split; [reflexivity | intros []]].
  destruct (guard_sql text) as [sql|e]; cbn; [|split; [reflexivity | intros []]].
  set (q := force_limit sql limit).
  store_cases q; (split; [reflexivity|]); intros H;
    try (exfalso; cbn in H; intuition discriminate);
    match goal with
    | |- exists lg, ?l = _ => exists (removelast l); reflexivity
    end.
Qed.

Lemma slice_to_firstn {A : Type} (l : list A) (n : Z) :
  (0 <= n)%Z -> slice_to l n = firstn (Z.to_nat n) l.
Proof.
  intros H. unfold slice_to. destruct (0 <=? n)%Z eqn:E; [reflexivity|].
  apply Z.leb_gt in E. lia.
Qed.

(** C3.  In a success result of [run_sql] with a limit of at least one,
    [rows] has at most [limit] entries, exactly the smaller of [row_count]
    and [preview_limit] many; [preview_limit] is the limit; and
    [row_count] is the number of all rows [fetchall] returned for the
    statement executed, of which [rows] are the first. *)
Theorem run_sql_preview_bounded (text : str) (limit : Z) (lg : list event)
    (elapsed_ms row_count preview_limit : Z) (columns : list str)
    (rows : list (row value)) :
  (1 <= limit)%Z ->
  run_sql_call env text limit
  = (Return (Success elapsed_ms row_count preview_limit columns rows), lg) ->
  Z.of_nat (List.length rows) = Z.min row_count preview_limit /\
  (Z.of_nat (List.length rows) <= limit)%Z /\
  preview_limit = limit /\
  exists sql fetched,
    In (Execute sql) lg /\
    fetchall_result (store env) sql = inr fetched /\
    row_count = Z.of_nat (List.length fetched) /\
    rows = firstn (Z.to_nat limit) fetched.
Proof.
  intros Hl. unfold_run.
  destruct (psycopg2_installed env); cbn; [|discriminate].
  destruct (guard_sql text) as [sql|e]; cbn; [|discriminate].
  set (q := force_limit sql limit).
  store_cases q; try discriminate;
    intros H; injection H as <- <- <- <- <- <-;
    rewrite slice_to_firstn by lia;
    (split; [rewrite length_firstn; lia|]);
    (split; [rewrite length_firstn; lia|]);
    (split; [reflexivity|]);
    match goal with
    | F : fetchall_result _ _ = inr ?fetched |- _ => exists q, fetched
    end; cbn; intuition.
Qed.

(** C6.  For a text that [guard_sql] accepts, [run_sql] returns a result
    and raises nothing, whatever the data store answers; when the data
    store raises while connecting, executing or fetching, the result is
    the failure with the text of that exception; and [connect] is called
    once and [execute] at most once. *)
Theorem run_sql_catches_store_errors (text sql : str) (limit : Z) :
  psycopg2_installed env = true ->
  guard_sql text = Return sql ->
  (exists r, fst (run_sql_call env text limit) = Return r) /\
  (forall m, raises_during (store env) (force_limit sql limit) m ->
             fst (run_sql_call env text limit) = Return (Failure (Text m))) /\
  calls is_connect (snd (run_sql_call env text limit)) = 1%nat /\
  (calls is_execute (snd (run_sql_call env text limit)) <= 1)%nat.
Proof.
  intros Hi Hg. unfold_run. rewrite Hi, Hg. cbn. clear Hi Hg.
  split; [|split; [|split]].
  - store_cases (force_limit sql limit); eauto.
  - intros m R.
    destruct R as [m E1 | m E1 E2 | m E1 E2 E3 | m E1 E2 E3 E4 E5
                  | m E1 E2 E3 E4 E5 E6];
      repeat match goal with H : _ = _ |- _ => rewrite H; clear H end;
      cbn; destruct (close_raises (store env)); reflexivity.
  - store_cases (force_limit sql limit); reflexivity.
  - store_cases (force_limit sql limit); unfold calls; cbn; lia.
Qed.

End ExecutorFacts.

Lemma run_sql_propagates_rejection_witness :
  psycopg2_installed (Sample.with_store Sample.quiet) = true /\
  guard_sql (lit "DROP TABLE x") = Raise (ValueError NotAReadStatement) /\
  run_sql_call (Sample.with_store Sample.quiet) (lit "DROP TABLE x") 10
  = (Raise (ValueError NotAReadStatement), []).
Proof.
  split; [reflexivity|]. split; [reflexivity|].
  apply (run_sql_propagates_rejection Z (Sample.with_store Sample.quiet)
           (lit "DROP TABLE x") 10 (ValueError NotAReadStatement));
    reflexivity.
Defined.

Lemma run_sql_releases_connection_witness :
  In (Connect true)
     (snd (run_sql_call (Sample.with_store Sample.rejecting) Sample.accepted 10)) /\
  exists lg,
    snd (run_sql_call (Sample.with_store Sample.rejecting) Sample.accepted 10)
    = lg ++ [Close].
Proof.
  split; [left; reflexivity|].
  apply (run_sql_releases_connection Z (Sample.with_store Sample.rejecting)
           Sample.accepted 10).
  left; reflexivity.
Defined.

Lemma run_sql_preview_bounded_witness :
  (1 <= 2)%Z /\
  run_sql_call (Sample.with_store Sample.quiet) Sample.accepted 2
  = (Return (Success 12 3 2 [lit "id"] (firstn 2 Sample.three_rows)),
     [Connect true; SetAutocommit; OpenCursor;
      Execute (Sample.accepted ++ lit "\nLIMIT 2;");
      Fetchall; CloseCursor; Close]) /\
  Z.of_nat (List.length (firstn 2 Sample.three_rows)) = Z.min 3 2 /\
  (Z.of_nat (List.length (firstn 2 Sample.three_rows)) <= 2)%Z.
Proof.
  split; [lia|]. split; [reflexivity|].
  destruct (run_sql_preview_bounded Z (Sample.with_store Sample.quiet)
              Sample.accepted 2
              [Connect true; SetAutocommit; OpenCursor;
               Execute (Sample.accepted ++ lit "\nLIMIT 2;");
               Fetchall; CloseCursor; Close]
              12 3 2 [lit "id"] (firstn 2 Sample.three_rows)
              ltac:(lia) eq_refl) as (H1 & H2 & _).
  split; [exact H1 | exact H2].
Defined.

Lemma run_sql_catches_store_errors_witness :
  psycopg2_installed (Sample.with_store Sample.unreachable) = true /\
  guard_sql Sample.accepted = Return Sample.accepted /\
  raises_during (store (Sample.with_store Sample.unreachable))
    (force_limit Sample.accepted 10) (lit "connection refused") /\
  fst (run_sql_call (Sample.with_store Sample.unreachable) Sample.accepted 10)
  = Return (Failure (Text (lit "connection refused"))).
Proof.
  split; [reflexivity|]. split; [reflexivity|].
  split; [apply in_connect; reflexivity|].
  apply (run_sql_catches_store_errors Z (Sample.with_store Sample.unreachable)
           Sample.accepted Sample.accepted 10 eq_refl eq_refl).
  apply in_connect; reflexivity.
Defined.

(** C4.  A text that [guard_sql] accepts and that has a whole-word LIMIT
    is not run unchanged: [run_sql] executes it with a second LIMIT clause
    behind it; and what it puts between the text and that clause is a
    backslash and the letter n, not a line feed. *)
Theorem run_sql_appends_second_limit :
  let text := Sample.accepted_with_limit in
  Spec.has_limit_clause text = true /\
  guard_sql text = Return text /\
  snd (run_sql_call (Sample.with_store Sample.quiet) text 500)
  = [Connect true; SetAutocommit; OpenCursor;
     Execute (text ++ lit "\nLIMIT 500;"); Fetchall; CloseCursor; Close] /\
  contains_char newline (text ++ lit "\nLIMIT 500;") = false.
Proof. vm_compute. auto. Qed.

(** * Further properties of the guard and the executor *)

(** ** Trimming *)

Lemma isspace_lower (x : ascii) : isspace (lower x) = isspace x.
Proof. destruct x as [[] [] [] [] [] [] [] []]; reflexivity. Qed.

Lemma lit_matches_isspace (fl : flags) (c x : ascii) :
  lit_matches fl c x = true -> isspace x = isspace c.
Proof.
  unfold lit_matches. destruct (IGNORECASE fl); intros H;
    apply Ascii.eqb_eq in H.
  - rewrite <- (isspace_lower x), <- (isspace_lower c). now rewrite H.
  - now subst.
Qed.

Lemma lstrip_solid (w : str) (c : ascii) (t : str) :
  isspace c = false -> lstrip (w ++ c :: t) = lstrip w ++ c :: t.
Proof.
  intros Hc. induction w as [|x w IH]; simpl.
  - now rewrite Hc.
  - destruct (isspace x); auto.
Qed.

Lemma rstrip_cons_solid (c : ascii) (t : str) :
  isspace c = false -> rstrip (c :: t) = c :: rstrip t.
Proof.
  intros Hc. unfold rstrip. simpl.
  rewrite (lstrip_solid (rev t) c [] Hc), rev_app_distr. reflexivity.
Qed.

Lemma lstrip_decompose (t : str) :
  exists a, t = a ++ lstrip t /\ forallb isspace a = true.
Proof.
  induction t as [|c t (a & E & Ha)]; simpl.
  - exists []. auto.
  - destruct (isspace c) eqn:Hc.
    + exists (c :: a). simpl. rewrite Hc, Ha. split; [congruence | reflexivity].
    + exists []. auto.
Qed.

Lemma forallb_rev {A : Type} (p : A -> bool) (l : list A) :
  forallb p (rev l) = forallb p l.
Proof.
  induction l as [|x l IH]; simpl; [reflexivity|].
  rewrite forallb_app, IH. simpl. rewrite andb_true_r. apply andb_comm.
Qed.

Lemma rstrip_decompose (t : str) :
  exists b, t = rstrip t ++ b /\ forallb isspace b = true.
Proof.
  destruct (lstrip_decompose (rev t)) as (a & E & Ha).
  exists (rev a). split.
  - unfold rstrip. rewrite <- rev_app_distr, <- E. now rewrite rev_involutive.
  - now rewrite forallb_rev.
Qed.

Lemma strip_decompose (t : str) :
  exists a b, t = a ++ strip t ++ b /\
              forallb isspace a = true /\ forallb isspace b = true.
Proof.
  destruct (lstrip_decompose t) as (a & E & Ha).
  destruct (rstrip_decompose (lstrip t)) as (b & E' & Hb).
  exists a, b. unfold strip. rewrite <- E', <- E. auto.
Qed.

Lemma lstrip_idem (t : str) : lstrip (lstrip t) = lstrip t.
Proof.
  induction t as [|c t IH]; simpl; [reflexivity|].
  destruct (isspace c) eqn:Hc; [exact IH|]. simpl. now rewrite Hc.
Qed.

Lemma rstrip_idem (t : str) : rstrip (rstrip t) = rstrip t.
Proof.
  unfold rstrip. now rewrite rev_involutive, lstrip_idem.
Qed.

(** ** Words without whitespace at their ends *)

Lemma solid_end_sound (fl : flags) (r : regex) (u : str) :
  lang fl r u -> Shape.solid_end r = true ->
  u = [] \/ exists u' x, u = u' ++ [x] /\ isspace x = false.
Proof.
  induction 1 as [ | c x Hx | x Hx | x Hx | r1 r2 u v H1 IH1 H2 IH2
                 | r1 r2 u H1 IH1 | r1 r2 u H1 IH1 | r
                 | r x u v H1 IH1 H2 IH2 ]; simpl; intros S;
    try discriminate S.
  - now left.
  - right. exists [], x. split; [reflexivity|].
    rewrite (lit_matches_isspace _ _ _ Hx). now apply negb_true_iff.
  - apply andb_prop in S as [S2 S1].
    destruct (IH2 S2) as [-> | (v' & y & -> & Hy)].
    + rewrite app_nil_r. apply IH1.
      apply (nullable_lang fl) in H2. rewrite H2 in S1.
      now rewrite orb_false_r in S1.
    + right. exists (u ++ v'), y. now rewrite app_assoc.
  - apply andb_prop in S as [S1 _]. auto.
  - apply andb_prop in S as [_ S2]. auto.
  - now left.
  - destruct (IH2 S) as [-> | (v' & y & -> & Hy)].
    + rewrite app_nil_r. apply IH1, S.
    + right. exists (x :: u ++ v'), y. simpl. now rewrite app_assoc.
Qed.

Lemma solid_start_sound (fl : flags) (r : regex) (u : str) :
  lang fl r u -> Shape.solid_start r = true ->
  u = [] \/ exists x u', u = x :: u' /\ isspace x = false.
Proof.
  induction 1 as [ | c x Hx | x Hx | x Hx | r1 r2 u v H1 IH1 H2 IH2
                 | r1 r2 u H1 IH1 | r1 r2 u H1 IH1 | r
                 | r x u v H1 IH1 H2 IH2 ]; simpl; intros S;
    try discriminate S.
  - now left.
  - right. exists x, []. split; [reflexivity|].
    rewrite (lit_matches_isspace _ _ _ Hx). now apply negb_true_iff.
  - apply andb_prop in S as [S1 S2].
    destruct (IH1 S1) as [-> | (y & u' & -> & Hy)].
    + simpl. apply IH2.
      apply (nullable_lang fl) in H1. rewrite H1 in S2.
      now rewrite orb_false_r in S2.
    + right. exists y, (u' ++ v). auto.
  - apply andb_prop in S as [S1 _]. auto.
  - apply andb_prop in S as [_ S2]. auto.
  - now left.
  - destruct (IH1 S) as [E | (y & u' & E & Hy)]; [discriminate E|].
    injection E as -> ->. right. exists y, (u' ++ v). auto.
Qed.

Lemma forallb_last_true {A : Type} (p : A -> bool) (l : list A) (x : A) :
  forallb p (l ++ [x]) = true -> p x = true.
Proof.
  rewrite forallb_app. simpl. intros H.
  apply andb_prop in H as [_ H]. now rewrite andb_true_r in H.
Qed.

(** A word with a solid end that begins a text also begins the text with
    trailing whitespace removed. *)
Lemma prefix_survives_rtrim (m b u v : str) :
  m ++ b = u ++ v ->
  forallb isspace b = true ->
  (u = [] \/ exists u' x, u = u' ++ [x] /\ isspace x = false) ->
  exists v', m = u ++ v'.
Proof.
  intros E Hb Hu. apply app_eq_app in E as (l & [[-> _] | [-> ->]]).
  - eauto.
  - destruct l as [|y l] using rev_ind.
    + exists []. now rewrite !app_nil_r.
    + exfalso. destruct Hu as [Hu | (u' & x & Hu & Hx)].
      * apply app_eq_nil in Hu as [_ Hu]. now destruct l.
      * rewrite app_assoc in Hu. apply app_inj_tail in Hu as [_ ->].
        rewrite forallb_app in Hb. apply andb_prop in Hb as [Hb _].
        apply forallb_last_true in Hb. congruence.
Qed.

(** A word with solid ends that occurs in a text occurs in the trimmed
    text. *)
Lemma occurrence_survives_trim (a m b p u v : str) :
  a ++ m ++ b = p ++ u ++ v ->
  forallb isspace a = true ->
  forallb isspace b = true ->
  (exists x u', u = x :: u' /\ isspace x = false) ->
  (exists u' x, u = u' ++ [x] /\ isspace x = false) ->
  exists p' v', m = p' ++ u ++ v'.
Proof.
  intros E Ha Hb (x & u1 & Hu1 & Hx) Hend.
  assert (E' : exists l, m ++ b = (l ++ u) ++ v).
  { apply app_eq_app in E as (l & [[-> E] | [-> E]]).
    - destruct l as [|y l].
      + exists []. simpl in *. now rewrite app_nil_r in *.
      + exfalso. subst u. simpl in E. injection E as <- _.
        rewrite forallb_app in Ha. apply andb_prop in Ha as [_ Ha].
        simpl in Ha. rewrite Hx in Ha. discriminate Ha.
    - exists l. now rewrite <- app_assoc. }
  destruct E' as (l & E').
  apply prefix_survives_rtrim in E' as (v' & ->); auto.
  - exists l, v'. now rewrite <- app_assoc.
  - right. destruct Hend as (u' & y & -> & Hy).
    exists (l ++ u'), y. now rewrite app_assoc.
Qed.

Lemma match_anywhere_inside (fl : flags) (r : regex) (a m b : str) :
  match_anywhere fl r m = true -> match_anywhere fl r (a ++ m ++ b) = true.
Proof.
  rewrite !match_anywhere_lang. intros (p & u & v & -> & L).
  exists (a ++ p), u, (v ++ b). split; [|exact L].
  now rewrite <- !app_assoc.
Qed.

(** ** What the guard accepts *)

Lemma guard_sql_inv (text s : str) :
  guard_sql text = Return s ->
  search _SQL_ALLOW_RE text = true /\
  search _SQL_FORBID_RE text = false /\
  search _SQL_VIEW_RE text = true /\
  contains_char semicolon (drop_last (strip text)) = false /\
  s = strip text.
Proof.
  unfold guard_sql. rewrite str_or_empty.
  destruct (search _SQL_ALLOW_RE text); simpl; [|discriminate].
  destruct (search _SQL_FORBID_RE text); simpl; [discriminate|].
  destruct (search _SQL_VIEW_RE text); simpl; [|discriminate].
  destruct (contains_char semicolon (drop_last (strip text)));
    [discriminate|].
  intros H. injection H as <-. auto.
Qed.

Lemma strip_backslash (rest : str) :
  strip (backslash :: rest) = backslash :: rstrip rest.
Proof.
  unfold strip. change (lstrip (backslash :: rest)) with (backslash :: rest).
  now apply rstrip_cons_solid.
Qed.

Lemma accepted_parts (text s : str) :
  guard_sql text = Return s ->
  exists rest,
    text = backslash :: rest /\
    s = backslash :: rstrip rest /\
    (exists b, text = s ++ b /\ forallb isspace b = true) /\
    strip s = s /\
    contains_char semicolon (removelast s) = false.
Proof.
  intros H. apply guard_sql_inv in H as (Ha & _ & _ & Hs & ->).
  apply allow_begins_with_backslash in Ha as (rest & ->).
  exists rest. rewrite strip_backslash in *.
  split; [reflexivity|]. split; [reflexivity|]. split; [|split].
  - destruct (rstrip_decompose rest) as (b & E & Hb).
    exists b. simpl. now rewrite <- E.
  - now rewrite strip_backslash, rstrip_idem.
  - exact Hs.
Qed.

(** X1.  A text [guard_sql] accepts begins with a backslash, and what is
    returned is the text without its trailing whitespace: it begins with
    that backslash, so it is not empty, trimming it again changes nothing,
    and it has no semicolon before its last character. *)
Theorem guard_sql_accepted_shape (text s : str) :
  guard_sql text = Return s ->
  exists rest,
    text = backslash :: rest /\
    s = backslash :: rstrip rest /\
    (exists b, text = s ++ b /\ forallb isspace b = true) /\
    strip s = s /\
    contains_char semicolon (removelast s) = false.
Proof.
  intros H. destruct (accepted_parts text s H) as (rest & H1 & H2 & H3 & H4 & H5).
  exists rest. auto.
Qed.

Lemma guard_sql_accepted_shape_witness :
  guard_sql (lit "\select\b 1 from\spublic\\.\PurchaseAllView;  ")
  = Return (lit "\select\b 1 from\spublic\\.\PurchaseAllView;") /\
  exists rest,
    lit "\select\b 1 from\spublic\\.\PurchaseAllView;  " = backslash :: rest /\
    lit "\select\b 1 from\spublic\\.\PurchaseAllView;"
    = backslash :: rstrip rest /\
    (exists b, lit "\select\b 1 from\spublic\\.\PurchaseAllView;  "
               = lit "\select\b 1 from\spublic\\.\PurchaseAllView;" ++ b /\
               forallb isspace b = true) /\
    strip (lit "\select\b 1 from\spublic\\.\PurchaseAllView;")
    = lit "\select\b 1 from\spublic\\.\PurchaseAllView;" /\
    contains_char semicolon
      (removelast (lit "\select\b 1 from\spublic\\.\PurchaseAllView;")) = false.
Proof.
  split; [reflexivity|].
  apply (guard_sql_accepted_shape
           (lit "\select\b 1 from\spublic\\.\PurchaseAllView;  ")
           (lit "\select\b 1 from\spublic\\.\PurchaseAllView;")).
  reflexivity.
Defined.

(** X2.  Validating an accepted text again accepts it unchanged. *)
Theorem guard_sql_idempotent (text s : str) :
  guard_sql text = Return s -> guard_sql s = Return s.
Proof.
  intros H.
  destruct (accepted_parts text s H)
    as (rest & _ & _ & (b & Et & Hb) & Hstrip & Hsemi).
  apply guard_sql_inv in H as (Ha & Hf & Hv & _ & _).
  assert (Ha' : search _SQL_ALLOW_RE s = true).
  { change (match_prefix I_S (body _SQL_ALLOW_RE) text = true) in Ha.
    change (match_prefix I_S (body _SQL_ALLOW_RE) s = true).
    apply match_prefix_lang in Ha as (u & v & Eu & L).
    apply match_prefix_lang.
    destruct (prefix_survives_rtrim s b u v) as (v' & ->); eauto.
    - now rewrite <- Et.
    - eapply solid_end_sound; [exact L | reflexivity]. }
  assert (Hf' : search _SQL_FORBID_RE s = false).
  { destruct (search _SQL_FORBID_RE s) eqn:E; [|reflexivity].
    change (match_anywhere I (body _SQL_FORBID_RE) text = false) in Hf.
    change (match_anywhere I (body _SQL_FORBID_RE) s = true) in E.
    apply (match_anywhere_inside _ _ [] s b) in E.
    change ([] ++ s ++ b) with (s ++ b) in E.
    rewrite <- Et, Hf in E. discriminate E. }
  assert (Hv' : search _SQL_VIEW_RE s = true).
  { change (match_anywhere I (body _SQL_VIEW_RE) text = true) in Hv.
    change (match_anywhere I (body _SQL_VIEW_RE) s = true).
    apply match_anywhere_lang in Hv as (p & u & v & Eu & L).
    apply match_anywhere_lang.
    destruct (occurrence_survives_trim [] s b p u v) as (p' & v' & ->);
      eauto.
    - change ([] ++ s ++ b) with (s ++ b). now rewrite <- Et.
    - destruct (solid_start_sound _ _ _ L eq_refl) as [-> | Hu]; [|exact Hu].
      apply nullable_lang in L. discriminate L.
    - destruct (solid_end_sound _ _ _ L eq_refl) as [-> | Hu]; [|exact Hu].
      apply nullable_lang in L. discriminate L. }
  unfold guard_sql.
  rewrite str_or_empty, Ha', Hf', Hv', Hstrip. unfold drop_last.
  rewrite Hsemi. reflexivity.
Qed.

Lemma guard_sql_idempotent_witness :
  guard_sql (lit "\select\b 1 from\spublic\\.\PurchaseAllView;  ")
  = Return (lit "\select\b 1 from\spublic\\.\PurchaseAllView;") /\
  guard_sql (lit "\select\b 1 from\spublic\\.\PurchaseAllView;")
  = Return (lit "\select\b 1 from\spublic\\.\PurchaseAllView;").
Proof.
  split; [reflexivity|].
  apply (guard_sql_idempotent
           (lit "\select\b 1 from\spublic\\.\PurchaseAllView;  ")).
  reflexivity.
Defined.

(** ** The statement that is run *)

Lemma contains_char_rev (x : ascii) (s : str) :
  contains_char x (rev s) = contains_char x s.
Proof.
  unfold contains_char. induction s as [|c s IH]; [reflexivity|].
  cbn [rev existsb]. rewrite existsb_app, IH. cbn [existsb].
  rewrite orb_false_r. apply orb_comm.
Qed.

Lemma contains_char_lstrip_char (x y : ascii) (s : str) :
  contains_char x s = false -> contains_char x (lstrip_char y s) = false.
Proof.
  unfold contains_char. induction s as [|c s IH]; cbn [lstrip_char existsb];
    [auto|].
  intros H. apply orb_false_elim in H as [H1 H2].
  destruct (Ascii.eqb c y); [auto|]. cbn [existsb]. now rewrite H1, H2.
Qed.

Lemma rstrip_char_clears (x : ascii) (s : str) :
  contains_char x (removelast s) = false ->
  contains_char x (rstrip_char x s) = false.
Proof.
  destruct s as [|c s _] using rev_ind; [reflexivity|].
  rewrite removelast_last. intros H. unfold rstrip_char.
  rewrite rev_app_distr. cbn [rev app lstrip_char].
  destruct (Ascii.eqb c x) eqn:E.
  - rewrite contains_char_rev.
    apply contains_char_lstrip_char. now rewrite contains_char_rev.
  - cbn [rev]. rewrite rev_involutive, contains_char_app, H.
    unfold contains_char. cbn [existsb].
    now rewrite Ascii.eqb_sym, E.
Qed.

Lemma digits_without_semicolon (d : Decimal.uint) :
  contains_char semicolon (lit (NilEmpty.string_of_uint d)) = false.
Proof. induction d; simpl; auto. Qed.

Lemma str_of_int_without_semicolon (n : Z) :
  contains_char semicolon (str_of_int n) = false.
Proof.
  unfold str_of_int, NilZero.string_of_int, NilZero.string_of_uint.
  destruct (Z.to_int n) as [d|d]; destruct d;
    try reflexivity;
    try apply (digits_without_semicolon (Decimal.D0 d));
    try apply (digits_without_semicolon (Decimal.D1 d));
    try apply (digits_without_semicolon (Decimal.D2 d));
    try apply (digits_without_semicolon (Decimal.D3 d));
    try apply (digits_without_semicolon (Decimal.D4 d));
    try apply (digits_without_semicolon (Decimal.D5 d));
    try apply (digits_without_semicolon (Decimal.D6 d));
    try apply (digits_without_semicolon (Decimal.D7 d));
    try apply (digits_without_semicolon (Decimal.D8 d));
    try apply (digits_without_semicolon (Decimal.D9 d)).
Qed.

(** X3.  The statement [run_sql] hands to the database for an accepted
    text has no semicolon before its last character, for every limit; and
    when the LIMIT clause is appended, the statement ends in a semicolon. *)
Theorem force_limit_single_statement (text s : str) (limit : Z) :
  guard_sql text = Return s ->
  contains_char semicolon (removelast (force_limit s limit)) = false /\
  (search LIMIT_RE s = false ->
   exists body, force_limit s limit = body ++ [semicolon]).
Proof.
  intros H.
  destruct (accepted_parts text s H) as (_ & _ & _ & _ & _ & Hs).
  unfold force_limit, with_limit.
  destruct (search LIMIT_RE s); cbn [negb].
  - split; [exact Hs | discriminate].
  - change (lit ";") with [semicolon]. rewrite !app_assoc.
    split; [|eauto]. rewrite removelast_last, !contains_char_app.
    rewrite (rstrip_char_clears _ _ Hs), str_of_int_without_semicolon.
    reflexivity.
Qed.

Lemma force_limit_single_statement_witness :
  guard_sql Sample.accepted = Return Sample.accepted /\
  contains_char semicolon (removelast (force_limit Sample.accepted 10)) = false.
Proof.
  split; [reflexivity|].
  apply (force_limit_single_statement Sample.accepted Sample.accepted 10).
  reflexivity.
Defined.

(** ** More on one call of the executor *)

Section ExecutorMore.

Variable value : Type.
Variable env : environment value.

Ltac unfold_call :=
  unfold run_sql_call, run_sql, query, release, with_cursor, fetchall,
    connect, call, bind, try_finally, try_except, lift, ret, raise,
    set_conn, get_conn.

Ltac answers q :=
  destruct (connect_raises (store env));
  [| destruct (autocommit_raises (store env));
     [| destruct (cursor_raises (store env));
        [| destruct (execute_raises (store env) q);
           [| destruct (fetchall_result (store env) q) eqn:? ];
           destruct (cursor_exit_raises (store env)) ] ] ];
  destruct (close_raises (store env)); cbn.

(** X4.  An exception leaves [run_sql] exactly when the driver is
    installed and [guard_sql] rejects the text, and it is the exception of
    the guard: no exception of the driver leaves [run_sql], and without
    the driver the guard is not consulted. *)
Theorem run_sql_raises_iff (text : str) (limit : Z) (e : exn) :
  fst (run_sql_call env text limit) = Raise e <->
  psycopg2_installed env = true /\ guard_sql text = Raise e.
Proof.
  unfold_call.
  destruct (psycopg2_installed env); cbn.
  - destruct (guard_sql text) as [s|e']; cbn.
    + split; [|intros [_ H]; discriminate H].
      answers (force_limit s limit); discriminate.
    + split; intros H.
      * injection H as ->. auto.
      * destruct H as [_ H]. injection H as ->. reflexivity.
  - split; [discriminate | intros [H _]; discriminate H].
Qed.

(** X5.  The calls [run_sql] makes on the driver are one of six
    sequences: none; a failed [connect]; or, after a [connect] that
    returned and the switch to non-autocommit, a run that stops at the
    switch, at the cursor, at [execute] or after [fetchall], each time
    closing the cursor it opened before closing the connection.  The
    statement executed is the accepted text with the limit forced. *)
Theorem run_sql_call_sequence (text : str) (limit : Z) :
  let lg := snd (run_sql_call env text limit) in
  lg = [] \/
  exists s,
    guard_sql text = Return s /\
    (lg = [Connect false] \/
     lg = [Connect true; SetAutocommit; Close] \/
     lg = [Connect true; SetAutocommit; OpenCursor; Close] \/
     lg = [Connect true; SetAutocommit; OpenCursor;
           Execute (force_limit s limit); CloseCursor; Close] \/
     lg = [Connect true; SetAutocommit; OpenCursor;
           Execute (force_limit s limit); Fetchall; CloseCursor; Close]).
Proof.
  unfold_call.
  destruct (psycopg2_installed env); cbn; [|now left].
  destruct (guard_sql text) as [s|e']; cbn; [|now left].
  right. exists s. split; [reflexivity|].
  answers (force_limit s limit); auto 6.
Qed.

(** X6.  In a success result of [run_sql] with a limit that is not
    positive, [row_count] is the number of rows [fetchall] returned for
    the statement executed and [columns] are the keys of the first row
    shown; with a limit of zero there are no rows and no columns, however
    many rows were fetched; with a negative limit [rows] are the fetched
    rows without the last [-limit], so there can be more of them than the
    limit. *)
Theorem run_sql_nonpositive_limit (text : str) (limit : Z) (lg : list event)
    (elapsed_ms row_count preview_limit : Z) (columns : list str)
    (rows : list (row value)) :
  (limit <= 0)%Z ->
  run_sql_call env text limit
  = (Return (Success elapsed_ms row_count preview_limit columns rows), lg) ->
  exists sql fetched,
    In (Execute sql) lg /\
    fetchall_result (store env) sql = inr fetched /\
    row_count = Z.of_nat (List.length fetched) /\
    preview_limit = limit /\
    columns = columns_of value rows /\
    (limit = 0%Z -> rows = [] /\ columns = []) /\
    ((limit < 0)%Z ->
     rows = firstn (List.length fetched - Z.to_nat (- limit)) fetched /\
     Z.of_nat (List.length rows) = Z.max 0 (row_count + limit)).
Proof.
  intros Hl. unfold_call.
  destruct (psycopg2_installed env); cbn; [|discriminate].
  destruct (guard_sql text) as [s|e']; cbn; [|discriminate].
  answers (force_limit s limit); try discriminate;
    intros H; injection H as <- <- <- <- <- <-;
    match goal with
    | F : fetchall_result _ _ = inr ?fetched |- _ =>
        exists (force_limit s limit), fetched
    end;
    (split; [cbn; tauto|]);
    (split; [assumption|]);
    (split; [reflexivity|]);
    (split; [reflexivity|]);
    (split; [reflexivity|]);
    (split;
     [ intros ->; split; reflexivity
     | intros Hn; unfold slice_to; destruct (0 <=? limit)%Z eqn:E;
       [ apply Z.leb_le in E; lia
       | split; [reflexivity | rewrite length_firstn; lia] ] ]).
Qed.

End ExecutorMore.

Lemma run_sql_raises_iff_witness :
  psycopg2_installed (Sample.with_store Sample.quiet) = true /\
  guard_sql (lit "SELECT 1") = Raise (ValueError NotAReadStatement) /\
  fst (run_sql_call (Sample.with_store Sample.quiet) (lit "SELECT 1") 10)
  = Raise (ValueError NotAReadStatement).
Proof.
  split; [reflexivity|]. split; [reflexivity|].
  apply (run_sql_raises_iff Z (Sample.with_store Sample.quiet)
           (lit "SELECT 1") 10 (ValueError NotAReadStatement)).
  split; reflexivity.
Defined.

Lemma run_sql_nonpositive_limit_witness :
  (-1 <= 0)%Z /\
  run_sql_call (Sample.with_store Sample.quiet) Sample.accepted (-1)
  = (Return (Success 12 3 (-1) [lit "id"] (firstn 2 Sample.three_rows)),
     [Connect true; SetAutocommit; OpenCursor;
      Execute (Sample.accepted ++ lit "\nLIMIT -1;");
      Fetchall; CloseCursor; Close]) /\
  exists sql fetched,
    In (Execute sql)
       [Connect true; SetAutocommit; OpenCursor;
        Execute (Sample.accepted ++ lit "\nLIMIT -1;");
        Fetchall; CloseCursor; Close] /\
    fetchall_result (store (Sample.with_store Sample.quiet)) sql
    = inr fetched /\
    3%Z = Z.of_nat (List.length fetched) /\
    (-1)%Z = (-1)%Z /\
    [lit "id"] = columns_of Z (firstn 2 Sample.three_rows) /\
    ((-1)%Z = 0%Z ->
     firstn 2 Sample.three_rows = [] /\ [lit "id"] = []) /\
    ((-1 < 0)%Z ->
     firstn 2 Sample.three_rows
     = firstn (List.length fetched - Z.to_nat (- -1)) fetched /\
     Z.of_nat (List.length (firstn 2 Sample.three_rows))
     = Z.max 0 (3 + -1)).
Proof.
  split; [lia|]. split; [reflexivity|].
  apply (run_sql_nonpositive_limit Z (Sample.with_store Sample.quiet)
           Sample.accepted (-1)
           [Connect true; SetAutocommit; OpenCursor;
            Execute (Sample.accepted ++ lit "\nLIMIT -1;");
            Fetchall; CloseCursor; Close]
           12 3 (-1) [lit "id"] (firstn 2 Sample.three_rows)
           ltac:(lia) eq_refl).
Defined.

(** * The state kept in the session *)

Lemma str_eqb_eq (a b : str) : Api.str_eqb a b = true <-> a = b.
Proof.
  revert b. induction a as [|x a IH]; intros [|y b]; simpl;
    try (split; [discriminate | discriminate]); [tauto|].
  rewrite andb_true_iff, Ascii.eqb_eq, IH. split.
  - intros [-> ->]. reflexivity.
  - intros E. injection E as -> ->. auto.
Qed.

Lemma str_eqb_refl (a : str) : Api.str_eqb a a = true.
Proof. now apply str_eqb_eq. Qed.

Lemma lookup_assign (k v k' : str) (d : Session.state) :
  Session.lookup k' (Session.assign k v d)
  = if Api.str_eqb k' k then Some v else Session.lookup k' d.
Proof.
  induction d as [|[k0 v0] d IH]; simpl; [reflexivity|].
  destruct (Api.str_eqb k k0) eqn:E; simpl.
  - apply str_eqb_eq in E. subst k0.
    destruct (Api.str_eqb k' k); reflexivity.
  - rewrite IH. destruct (Api.str_eqb k' k0) eqn:E0; [|reflexivity].
    apply str_eqb_eq in E0. subst k0.
    destruct (Api.str_eqb k' k) eqn:E1; [|reflexivity].
    apply str_eqb_eq in E1. subst k'. rewrite str_eqb_refl in E.
    discriminate E.
Qed.

Lemma lookup_app (k : str) (a b : Session.state) :
  Session.lookup k (a ++ b)
  = match Session.lookup k a with
    | Some v => Some v
    | None => Session.lookup k b
    end.
Proof.
  induction a as [|[k0 v0] a IH]; simpl; [reflexivity|].
  destruct (Api.str_eqb k k0); auto.
Qed.

Lemma lookup_update (k : str) (u d : Session.state) :
  Session.lookup k (Session.update d u)
  = match Session.lookup k (rev u) with
    | Some v => Some v
    | None => Session.lookup k d
    end.
Proof.
  unfold Session.update. revert d.
  induction u as [|[k0 v0] u IH]; intros d; simpl; [reflexivity|].
  rewrite IH, lookup_app, lookup_assign. simpl.
  destruct (Session.lookup k (rev u)); [reflexivity|].
  destruct (Api.str_eqb k k0); reflexivity.
Qed.

Lemma lookup_set_state (updates : Session.state) (sess : Session.session)
    (k : str) :
  Session.lookup k (fst (Session.get_state (Session.set_state updates sess)))
  = match Session.lookup k (rev updates) with
    | Some v => Some v
    | None => Session.lookup k (fst (Session.get_state sess))
    end.
Proof.
  unfold Session.set_state. destruct sess as [st|]; simpl;
    apply lookup_update.
Qed.

(** X7.  After [set_state(updates)] the state holds, under every key,
    the value [updates] gives it, and the value it held before under a
    key that [updates] does not have; on a session without state the
    values before are those of the fresh state. *)
Theorem set_state_then_get (updates : Session.state) (sess : Session.session)
    (k : str) :
  Session.lookup k (fst (Session.get_state (Session.set_state updates sess)))
  = match Session.lookup k (rev updates) with
    | Some v => Some v
    | None => Session.lookup k (fst (Session.get_state sess))
    end.
Proof. apply lookup_set_state. Qed.

Lemma update_keeps_keys (k : str) (u d : Session.state) :
  Session.lookup k d <> None -> Session.lookup k (Session.update d u) <> None.
Proof.
  intros H. rewrite lookup_update.
  destruct (Session.lookup k (rev u)); [discriminate | exact H].
Qed.

(** X8.  Whatever updates are made, starting from a session without
    state, each of the seven keys stays in the state: reading one of them
    never fails. *)
Theorem state_keeps_step_keys (history : list Session.state) (k : string) :
  In k Session.step_keys ->
  exists v,
    Session.lookup (lit k)
      (fst (Session.get_state
              (fold_left (fun s u => Session.set_state u s) history None)))
    = Some v.
Proof.
  intros Hk.
  assert (G : forall sess,
             Session.lookup (lit k) (fst (Session.get_state sess)) <> None ->
             Session.lookup (lit k)
               (fst (Session.get_state
                       (fold_left (fun s u => Session.set_state u s)
                          history sess))) <> None).
  { induction history as [|u history IH]; intros sess H; simpl; [exact H|].
    apply IH. unfold Session.set_state.
    destruct sess as [st|]; simpl in *; now apply update_keeps_keys. }
  assert (F : Session.lookup (lit k) (fst (Session.get_state None)) <> None).
  { simpl in Hk.
    repeat (destruct Hk as [<- | Hk]; [vm_compute; discriminate|]).
    destruct Hk. }
  specialize (G None F).
  destruct (Session.lookup (lit k)
              (fst (Session.get_state
                      (fold_left (fun s u => Session.set_state u s)
                         history None)))) as [v|]; [eauto|].
  now elim G.
Qed.

Lemma state_keeps_step_keys_witness :
  In "step3_sql_text"%string Session.step_keys /\
  exists v,
    Session.lookup (lit "step3_sql_text")
      (fst (Session.get_state
              (fold_left (fun s u => Session.set_state u s)
                 [[(lit "question", lit "how many")]; [(lit "x", lit "y")]]
                 None)))
    = Some v.
Proof.
  split; [simpl; tauto|].
  apply (state_keeps_step_keys
           [[(lit "question", lit "how many")]; [(lit "x", lit "y")]]
           "step3_sql_text").
  simpl; tauto.
Defined.

(** X9.  After the route [start] the state holds the trimmed question
    and the empty string under each of the six step keys, whatever the
    session held before. *)
Theorem start_resets_steps (question : option str) (sess : Session.session)
    (k : string) :
  In k (tl Session.step_keys) ->
  let st := fst (Session.get_state (Session.start question sess)) in
  Session.lookup (lit k) st = Some [] /\
  Session.lookup (lit "question") st
  = Some (strip (match question with Some q => q | None => [] end)).
Proof.
  intros Hk st. subst st. unfold Session.start.
  rewrite !lookup_set_state, str_or_empty. split; [|reflexivity].
  simpl in Hk.
  repeat (destruct Hk as [<- | Hk]; [reflexivity|]).
  destruct Hk.
Qed.

Lemma start_resets_steps_witness :
  In "step5_sql_result_json"%string (tl Session.step_keys) /\
  Session.lookup (lit "step5_sql_result_json")
    (fst (Session.get_state
            (Session.start (Some (lit " next "))
               (Some [(lit "step5_sql_result_json", lit "old")]))))
  = Some [].
Proof.
  split; [simpl; tauto|].
  apply (start_resets_steps (Some (lit " next "))
           (Some [(lit "step5_sql_result_json", lit "old")])
           "step5_sql_result_json").
  simpl; tauto.
Defined.

(** * The runner of API plans *)

Section ApiFacts.

Variable number : Type.
Variable nonzero : number -> bool.
Variable requests_installed : bool.
Variable loads : str -> str + Api.json number.
Variable http : nat -> Api.json number -> str + Api.json number.

#[local] Abbreviation json := (Api.json number).
#[local] Abbreviation truthy := (Api.truthy number nonzero).
#[local] Abbreviation get := (Api.get number).
#[local] Abbreviation or_else := (Api.or_else number nonzero).
#[local] Abbreviation elements := (Api.elements number).
#[local] Abbreviation requested_call := (Api.requested_call number nonzero).
#[local] Abbreviation id_of := (Api.id_of number).
#[local] Abbreviation url_of := (Api.url_of number).
#[local] Abbreviation run_calls := (Api.run_calls number nonzero http).
#[local] Abbreviation run_plan := (Api.run_plan number nonzero http).
#[local] Abbreviation run_api_plan :=
  (Api.run_api_plan number nonzero requests_installed loads http).

(** X10.  A plan that parses to an object whose [need_api] is missing or
    false in Python's sense gives the result without results, and no
    request is made, whatever the plan holds under [calls]. *)
Theorem run_api_plan_not_needed (plan_json : str)
    (items : list (str * json)) (need : json) :
  requests_installed = true ->
  loads (str_or plan_json (lit "{}")) = inr (Api.JDict items) ->
  get (Api.JDict items) "need_api" = Api.Ok need ->
  truthy need = false ->
  run_api_plan plan_json = (Api.Ok Api.NoApi, []).
Proof.
  intros Hr Hl Hn Ht. unfold Api.run_api_plan, Api.run_plan.
  rewrite Hr, Hl, Hn. cbn [negb Api.get]. rewrite Ht. reflexivity.
Qed.

(** X11.  A plan text that parses, but not to an object, makes
    [run_api_plan] raise an [AttributeError] instead of returning an error
    result; no request is made. *)
Theorem run_api_plan_not_an_object (plan_json : str) (plan : json) :
  requests_installed = true ->
  loads (str_or plan_json (lit "{}")) = inr plan ->
  Api.is_dict plan = false ->
  run_api_plan plan_json = (Api.Fault Api.AttributeError, []).
Proof.
  intros Hr Hl Hd. unfold Api.run_api_plan, Api.run_plan.
  rewrite Hr, Hl. destruct plan; try discriminate Hd; reflexivity.
Qed.

Lemma run_calls_requested (extract : json) (cs : list json) :
  forall n results requested results' requested',
    run_calls extract cs n results requested
    = (Api.Ok results', requested') ->
    map Api.entry_id results'
    = map Api.entry_id results ++ map id_of (filter requested_call cs) /\
    requested' = requested ++ map url_of (filter requested_call cs).
Proof.
  induction cs as [|c cs IH]; intros n results requested results' requested';
    cbn [Api.run_calls filter map].
  - intros H. injection H as <- <-. now rewrite !app_nil_r.
  - destruct (get c "id") as [cid|] eqn:Eid; [|discriminate].
    destruct (get c "url") as [url|] eqn:Eurl; [|discriminate].
    assert (Ei : id_of c = cid) by (unfold Api.id_of; now rewrite Eid).
    assert (Eu : url_of c = url) by (unfold Api.url_of; now rewrite Eurl).
    assert (Er : requested_call c = truthy cid && truthy url)
      by (unfold Api.requested_call; now rewrite Eid, Eurl).
    rewrite Er.
    destruct (truthy cid); [destruct (truthy url)|];
      cbn [negb orb andb map]; rewrite ?Ei, ?Eu.
    + destruct (http n url) as [e|data].
      * intros H. apply IH in H as [H1 H2].
        rewrite H1, H2, map_app. cbn [map Api.entry_id].
        now rewrite <- !app_assoc.
      * destruct (Api.fetched number extract cid data) as [out|] eqn:F;
          [|discriminate].
        intros H. apply IH in H as [H1 H2].
        rewrite H1, H2, map_app. cbn [map].
        assert (Eo : Api.entry_id out = cid).
        { unfold Api.fetched in F.
          repeat match type of F with
                 | match ?x with _ => _ end = _ => destruct x; try discriminate F
                 end.
          injection F as <-. reflexivity. }
        rewrite Eo. now rewrite <- !app_assoc.
    + apply IH.
    + apply IH.
Qed.

(** X12.  When [run_api_plan] returns results, the plan is an object,
    the requests made are the URLs of the calls whose [id] and [url] are
    both true values, in the order of the plan, one result stands for each
    of them with its [id], and the merge key is a true value. *)
Theorem run_api_plan_results (plan_json : str) (merge_key : json)
    (results : list (Api.entry number)) (requested : list json) :
  run_api_plan plan_json = (Api.Ok (Api.Done merge_key results), requested) ->
  exists items calls cs,
    loads (str_or plan_json (lit "{}")) = inr (Api.JDict items) /\
    get (Api.JDict items) "calls" = Api.Ok calls /\
    elements (or_else calls (Api.JList [])) = Api.Ok cs /\
    map Api.entry_id results = map id_of (filter requested_call cs) /\
    requested = map url_of (filter requested_call cs) /\
    truthy merge_key = true.
Proof.
  unfold Api.run_api_plan.
  destruct requests_installed; cbn [negb]; [|discriminate].
  destruct (loads (str_or plan_json (lit "{}"))) as [e|plan]; [discriminate|].
  destruct plan as [ | b | n | s | l | items ]; try discriminate.
  unfold Api.run_plan. cbn [Api.get].
  set (need := match Api.lookup number (lit "need_api") items with
               | Some x => x | None => Api.JNull end).
  set (calls := match Api.lookup number (lit "calls") items with
                | Some x => x | None => Api.JNull end).
  set (mk := match Api.lookup number (lit "merge_key") items with
             | Some x => x | None => Api.JNull end).
  set (extract := match Api.lookup number (lit "extract") items with
                  | Some x => x | None => Api.JNull end).
  destruct (truthy need); cbn [negb]; [|discriminate].
  destruct (elements (or_else calls (Api.JList []))) as [cs|] eqn:Ec;
    [|discriminate].
  destruct (run_calls (or_else extract (Api.JList [])) cs 0 [] [])
    as [[res|] req] eqn:R; [|discriminate].
  intros H. injection H as <- <- <-.
  apply run_calls_requested in R as [R1 R2].
  exists items, calls, cs. repeat split; auto.
  unfold Api.or_else. destruct (truthy mk) eqn:T; [exact T | reflexivity].
Qed.

Lemma fetched_of_dict (l : list json) (cid : json)
    (items : list (str * json)) :
  exists out, Api.fetched number (Api.JList l) cid (Api.JDict items)
              = Api.Ok out.
Proof.
  unfold Api.fetched, Api.field. cbn [Api.contains Api.get].
  repeat match goal with
         | |- context [if ?b then _ else _] => destruct b
         | |- context [match (if ?b then _ else _) with _ => _ end] =>
             destruct b
         end; eauto.
Qed.

Lemma run_calls_returns (l : list json) (cs : list json) :
  forallb Api.is_dict cs = true ->
  (forall n u data, http n u = inr data -> Api.is_dict data = true) ->
  forall n results requested,
  exists results',
    run_calls (Api.JList l) cs n results requested
    = (Api.Ok results', requested ++ map url_of (filter requested_call cs)).
Proof.
  intros Hcs Hbody.
  induction cs as [|c cs IH]; intros n results requested;
    cbn [Api.run_calls filter map].
  - exists results. now rewrite app_nil_r.
  - cbn [forallb] in Hcs. apply andb_prop in Hcs as [Hc Hcs].
    specialize (IH Hcs).
    destruct c as [ | | | | | items]; try discriminate Hc.
    destruct (get (Api.JDict items) "id") as [cid|] eqn:Eid;
      [|discriminate Eid].
    destruct (get (Api.JDict items) "url") as [url|] eqn:Eurl;
      [|discriminate Eurl].
    assert (Eu : url_of (Api.JDict items) = url)
      by (unfold Api.url_of; now rewrite Eurl).
    assert (Er : requested_call (Api.JDict items) = truthy cid && truthy url)
      by (unfold Api.requested_call; now rewrite Eid, Eurl).
    rewrite Er.
    destruct (truthy cid); [destruct (truthy url)|];
      cbn [negb orb andb map]; rewrite ?Eu; auto.
    destruct (http n url) as [e|data] eqn:Eh.
    + destruct (IH (S n) (results ++ [Api.Failed cid e]) (requested ++ [url]))
        as (r & ->).
      exists r. now rewrite <- app_assoc.
    + apply Hbody in Eh. destruct data as [ | | | | | body];
        try discriminate Eh.
      destruct (fetched_of_dict l cid body) as (out & ->).
      destruct (IH (S n) (results ++ [out]) (requested ++ [url])) as (r & ->).
      exists r. now rewrite <- app_assoc.
Qed.

(** X13.  For a plan that is an object with a true [need_api], with a
    list of objects under [calls] and a list (or nothing) under
    [extract], [run_api_plan] returns results and raises nothing whenever
    every body that arrives is an object: a request that fails does not
    stop the run, every requested call is tried, and there is one result
    for each. *)
Theorem run_api_plan_returns (plan_json : str) (items : list (str * json))
    (need calls extract : json) (cs l : list json) :
  requests_installed = true ->
  loads (str_or plan_json (lit "{}")) = inr (Api.JDict items) ->
  get (Api.JDict items) "need_api" = Api.Ok need ->
  get (Api.JDict items) "calls" = Api.Ok calls ->
  get (Api.JDict items) "extract" = Api.Ok extract ->
  truthy need = true ->
  or_else calls (Api.JList []) = Api.JList cs ->
  forallb Api.is_dict cs = true ->
  or_else extract (Api.JList []) = Api.JList l ->
  (forall n u data, http n u = inr data -> Api.is_dict data = true) ->
  exists merge_key results,
    run_api_plan plan_json
    = (Api.Ok (Api.Done merge_key results),
       map url_of (filter requested_call cs)) /\
    List.length results = List.length (filter requested_call cs).
Proof.
  intros Hr Hl Hn Hc He Ht Hcs Hd Hx Hbody.
  unfold Api.run_api_plan, Api.run_plan.
  rewrite Hr, Hl, Hn, Hc, He. cbn [negb Api.get]. rewrite Ht, Hcs, Hx.
  cbn [negb Api.elements].
  destruct (run_calls_returns l cs Hd Hbody 0 [] []) as (results & R).
  rewrite R. cbn [app].
  eexists _, results. split; [reflexivity|].
  apply run_calls_requested in R as [R _].
  apply (f_equal (@List.length json)) in R.
  now rewrite length_app, !length_map in R.
Qed.


End ApiFacts.

Lemma run_api_plan_not_needed_witness :
  Api.run_api_plan Z ApiSample.nonzero true
    (ApiSample.loads (ApiSample.plan false))
    (ApiSample.http ApiSample.status) (lit "the plan")
  = (Api.Ok Api.NoApi, []).
Proof.
  apply (run_api_plan_not_needed Z ApiSample.nonzero true
           (ApiSample.loads (ApiSample.plan false))
           (ApiSample.http ApiSample.status) (lit "the plan")
           (ApiSample.plan_items false) (Api.JBool false));
    reflexivity.
Defined.

Lemma run_api_plan_not_an_object_witness :
  Api.run_api_plan Z ApiSample.nonzero true
    (ApiSample.loads (Api.JList ApiSample.calls))
    (ApiSample.http ApiSample.status) (lit "the plan")
  = (Api.Fault Api.AttributeError, []).
Proof.
  apply (run_api_plan_not_an_object Z ApiSample.nonzero true
           (ApiSample.loads (Api.JList ApiSample.calls))
           (ApiSample.http ApiSample.status) (lit "the plan")
           (Api.JList ApiSample.calls));
    reflexivity.
Defined.

Lemma run_api_plan_results_witness :
  Api.run_api_plan Z ApiSample.nonzero true
    (ApiSample.loads (ApiSample.plan true))
    (ApiSample.http ApiSample.status) (lit "the plan")
  = (Api.Ok (Api.Done (Api.JStr (lit "PurchaseCardId"))
               [Api.Failed (Api.JNum Z 7%Z) (lit "timed out");
                Api.Fetched (Api.JNum Z 9%Z) ApiSample.status
                  (Some (Api.JStr (lit "done"))) None None]),
     [Api.JStr (lit "http://a/7"); Api.JStr (lit "http://a/9")]) /\
  exists items calls cs,
    ApiSample.loads (ApiSample.plan true) (str_or (lit "the plan") (lit "{}"))
    = inr (Api.JDict items) /\
    Api.get Z (Api.JDict items) "calls" = Api.Ok calls /\
    Api.elements Z (Api.or_else Z ApiSample.nonzero calls (Api.JList []))
    = Api.Ok cs /\
    map Api.entry_id
      [Api.Failed (Api.JNum Z 7%Z) (lit "timed out");
       Api.Fetched (Api.JNum Z 9%Z) ApiSample.status
         (Some (Api.JStr (lit "done"))) None None]
    = map (Api.id_of Z)
        (filter (Api.requested_call Z ApiSample.nonzero) cs) /\
    [Api.JStr (lit "http://a/7"); Api.JStr (lit "http://a/9")]
    = map (Api.url_of Z)
        (filter (Api.requested_call Z ApiSample.nonzero) cs) /\
    Api.truthy Z ApiSample.nonzero (Api.JStr (lit "PurchaseCardId")) = true.
Proof.
  split; [reflexivity|].
  apply (run_api_plan_results Z ApiSample.nonzero true
           (ApiSample.loads (ApiSample.plan true))
           (ApiSample.http ApiSample.status) (lit "the plan")).
  reflexivity.
Defined.

Lemma run_api_plan_returns_witness :
  exists merge_key results,
    Api.run_api_plan Z ApiSample.nonzero true
      (ApiSample.loads (ApiSample.plan true))
      (ApiSample.http ApiSample.status) (lit "the plan")
    = (Api.Ok (Api.Done merge_key results),
       map (Api.url_of Z)
         (filter (Api.requested_call Z ApiSample.nonzero) ApiSample.calls)) /\
    List.length results
    = List.length
        (filter (Api.requested_call Z ApiSample.nonzero) ApiSample.calls).
Proof.
  apply (run_api_plan_returns Z ApiSample.nonzero true
           (ApiSample.loads (ApiSample.plan true))
           (ApiSample.http ApiSample.status) (lit "the plan")
           (ApiSample.plan_items true) (Api.JBool true)
           (Api.JList ApiSample.calls)
           (Api.JList [Api.JStr (lit "current_status")])
           ApiSample.calls [Api.JStr (lit "current_status")]);
    try reflexivity.
  intros [|n] u data H; [discriminate H|].
  injection H as <-. reflexivity.
Defined.

